(** * Amcrest camera adapter (custom_components/amcrest/camera.py)

    A shallow embedding of the camera platform: the attribute parser, the
    cached adapter state with its refresh and mutation commands, the MJPEG
    stream hand-off and the service router, together with the properties
    of the design specification that concern them.

    Python values are embedded as a small universe [PyVal]; a method of
    the adapter is a state transformer that may finish normally or with a
    raised exception.  The vendor client ([self._camera]) is an external
    collaborator: it is a function from the calls made so far and the
    current call to a reply, so every deterministic device is covered and
    a theorem quantified over it holds for every behaviour of the device.
    A failure of the client is an [AmcrestError], the one error class
    the module expects of it.

    The state of a camera carries, besides its cached attributes, what the
    properties observe: the calls made on the client, the records handed
    to the module logger on behalf of this camera, and the number of state
    refreshes scheduled with the host. *)

From Stdlib Require Import ZArith String Ascii List Lia.
From stdpp Require Import base option list gmap strings.

Local Open Scope string_scope.
Local Open Scope Z_scope.
Local Open Scope list_scope.

(** ** Python values and exceptions *)

(** The values that flow between the device client and the adapter.  A
    [str] is its sequence of characters, with code points below 256. *)
#[warnings="-register-all"]
Inductive PyVal : Type :=
| PyNone
| PyBool (b : bool)
| PyInt (n : Z)
| PyStr (s : string)
| PyBytes (b : string)
| PyTuple (items : list PyVal).

(** The exception classes that occur in the module.  [AmcrestError] is the
    vendor client's error and carries the text it prints as. *)
Inductive Exn : Type :=
| AmcrestError (detail : string)
| AttributeError
| TypeError
| ValueError
| IndexError
| CancelledError
| OtherError (detail : string).

Inductive Result (A : Type) : Type :=
| Normal (a : A)
| Raised (e : Exn).
Arguments Normal {A} a.
Arguments Raised {A} e.

(** ** Statements: state passing with exceptions *)

Definition Py (S A : Type) : Type := S → Result A * S.

#[global] Instance Py_ret {S} : MRet (Py S) :=
  λ A a s, (Normal a, s).

#[global] Instance Py_bind {S} : MBind (Py S) :=
  λ A B f m s,
    match m s with
    | (Normal a, s') => f a s'
    | (Raised e, s') => (Raised e, s')
    end.

Definition lift_result {S A} (r : Result A) : Py S A := λ s, (r, s).

Definition get_state {S} : Py S S := λ s, (Normal s, s).

Definition modify {S} (f : S → S) : Py S unit := λ s, (Normal tt, f s).

(** [try: body / except ...: handler / else: orelse].  [handler e] is
    [None] when no [except] clause matches [e]; exceptions of the handler
    and of the [else] suite propagate. *)
Definition try_except_else {S A B} (body : Py S A)
    (handler : Exn → option (Py S B)) (orelse : A → Py S B) : Py S B :=
  λ s,
    match body s with
    | (Normal a, s') => orelse a s'
    | (Raised e, s') =>
        match handler e with
        | Some h => h s'
        | None => (Raised e, s')
        end
    end.

Definition try_except {S A} (body : Py S A)
    (handler : Exn → option (Py S A)) : Py S A :=
  try_except_else body handler mret.

(** [try: body / finally: final].  The [finally] suite always runs; when it
    raises, its exception replaces the outcome of the body. *)
Definition try_finally {S A} (body : Py S A) (final : Py S unit) : Py S A :=
  λ s,
    match body s with
    | (r, s') =>
        match final s' with
        | (Normal _, s'') => (r, s'')
        | (Raised e, s'') => (Raised e, s'')
        end
    end.

(** [for x in xs: body x] *)
Fixpoint for_each {S A} (xs : list A) (body : A → Py S unit) : Py S unit :=
  match xs with
  | [] => mret tt
  | x :: xs' => body x;; for_each xs' body
  end.

(** [except AmcrestError as error] *)
Definition except_AmcrestError {S A} (h : string → Py S A)
    (e : Exn) : option (Py S A) :=
  match e with
  | AmcrestError detail => Some (h detail)
  | _ => None
  end.

(** ** Strings: [str.split] and [str.strip] *)

(** [str.isspace] on one character, for code points below 256. *)
Definition is_space (c : ascii) : bool :=
  let n := nat_of_ascii c in
  ((9 <=? n)%nat && (n <=? 13)%nat)
  || ((28 <=? n)%nat && (n <=? 32)%nat)
  || (n =? 133)%nat || (n =? 160)%nat.

Fixpoint lstrip (s : string) : string :=
  match s with
  | EmptyString => EmptyString
  | String c s' => if is_space c then lstrip s' else s
  end.

Fixpoint rstrip (s : string) : string :=
  match s with
  | EmptyString => EmptyString
  | String c s' =>
      match rstrip s' with
      | EmptyString => if is_space c then EmptyString else String c EmptyString
      | r => String c r
      end
  end.

(** [s.strip()] *)
Definition strip (s : string) : string := rstrip (lstrip s).

(** The pieces of [s] between the occurrences of a non-empty [sep], found
    left to right without overlap.  [skip] counts the characters of a
    separator just matched that are still to be passed over and [cur] is
    the piece being read. *)
Fixpoint split_from (sep s : string) (skip : nat) (cur : string)
    : list string :=
  match s with
  | EmptyString => [cur]
  | String c s' =>
      match skip with
      | S k => split_from sep s' k cur
      | O =>
          if String.prefix sep s
          then cur :: split_from sep s' (String.length sep - 1) EmptyString
          else split_from sep s' O (cur +:+ String c EmptyString)
      end
  end.

(** [s.split(sep)]: an empty separator is a [ValueError]. *)
Definition str_split (s sep : string) : Result (list string) :=
  match sep with
  | EmptyString => Raised ValueError
  | _ => Normal (split_from sep s O EmptyString)
  end.

(** [xs[-1]] on a list. *)
Definition last_item {A} (xs : list A) : Result A :=
  match last xs with
  | Some x => Normal x
  | None => Raised IndexError
  end.

(** [resp.split(sep)[-1].strip()] for each kind of value: only [str] and
    [bytes] have a [split] attribute, and [bytes.split] refuses a [str]
    separator. *)
Definition split_last_strip (resp : PyVal) (sep : string) : Result PyVal :=
  match resp with
  | PyStr s =>
      match str_split s sep with
      | Normal parts =>
          match last_item parts with
          | Normal p => Normal (PyStr (strip p))
          | Raised e => Raised e
          end
      | Raised e => Raised e
      end
  | PyBytes _ => Raised TypeError
  | PyNone | PyBool _ | PyInt _ | PyTuple _ => Raised AttributeError
  end.

(** [_extract_attr(resp, sep='=')] *)
Definition _extract_attr (resp : PyVal) (sep : string) : Result PyVal :=
  match split_last_strip resp sep with
  | Raised AttributeError => Normal PyNone
  | r => r
  end.

(** ** The device client *)

(** One use of the vendor client: reading a property, assigning a
    property, or invoking a method with keyword arguments. *)
Inductive Call : Type :=
| GetAttr (attr : string)
| SetAttr (attr : string) (value : PyVal)
| CallMethod (name : string) (kwargs : list (string * PyVal)).

(** What the client answers: a value, or an [AmcrestError] with its text. *)
Inductive Reply : Type :=
| Ok (value : PyVal)
| Fail (detail : string).

(** The client answers a call knowing the calls made before it. *)
Definition Device : Type := list Call → Call → Reply.

(** ** The adapter *)

Inductive Level : Type := DEBUG | ERROR.

(** One record handed to [_LOGGER]: the format string and its arguments
    (an exception argument is its text). *)
Record LogRecord : Type := mkLog {
  level : Level;
  msg : string;
  args : list PyVal
}.

(** Stream-source modes.

    Modelled from the spec: [STREAM_SOURCE_LIST] is imported from the
    package's [__init__], which is not part of the sources at hand; the
    specification fixes the three modes snapshot, mjpeg and rtsp. *)
Inductive StreamSource : Type := snapshot | mjpeg | rtsp.

(** The part of [self] that is fixed at construction. *)
Record Adapter : Type := mkAdapter {
  _name : string;
  _camera : Device;
  entity_id : string;
  _stream_source : StreamSource
}.

(** The cached attributes of [self].  [is_streaming] is the attribute of
    the [Camera] base class. *)
Record Cache : Type := mkCache {
  is_streaming : PyVal;
  _is_recording : PyVal;
  _motion_detection_enabled : PyVal;
  _audio_enabled : PyVal;
  _color_bw : PyVal;
  _model : PyVal;
  _static_attrs : gmap string PyVal
}.

(** The mutable state a method runs in: the cache, the calls made on the
    device client so far, the records logged so far, and how often
    [schedule_update_ha_state] has been invoked. *)
Record State : Type := mkState {
  cache : Cache;
  calls : list Call;
  log : list LogRecord;
  scheduled : nat
}.

(** [AmcrestCam.__init__] *)
Definition init_cache : Cache :=
  {| is_streaming := PyBool false;
     _is_recording := PyBool false;
     _motion_detection_enabled := PyNone;
     _audio_enabled := PyNone;
     _color_bw := PyNone;
     _model := PyNone;
     _static_attrs := ∅ |}.

Definition init_state : State :=
  {| cache := init_cache; calls := []; log := []; scheduled := 0%nat |}.

Definition set_is_streaming (v : PyVal) (c : Cache) : Cache :=
  mkCache v (_is_recording c) (_motion_detection_enabled c) (_audio_enabled c)
    (_color_bw c) (_model c) (_static_attrs c).

Definition set__is_recording (v : PyVal) (c : Cache) : Cache :=
  mkCache (is_streaming c) v (_motion_detection_enabled c) (_audio_enabled c)
    (_color_bw c) (_model c) (_static_attrs c).

Definition set__motion_detection_enabled (v : PyVal) (c : Cache) : Cache :=
  mkCache (is_streaming c) (_is_recording c) v (_audio_enabled c)
    (_color_bw c) (_model c) (_static_attrs c).

Definition set__audio_enabled (v : PyVal) (c : Cache) : Cache :=
  mkCache (is_streaming c) (_is_recording c) (_motion_detection_enabled c) v
    (_color_bw c) (_model c) (_static_attrs c).

Definition set__color_bw (v : PyVal) (c : Cache) : Cache :=
  mkCache (is_streaming c) (_is_recording c) (_motion_detection_enabled c)
    (_audio_enabled c) v (_model c) (_static_attrs c).

Definition set__model (v : PyVal) (c : Cache) : Cache :=
  mkCache (is_streaming c) (_is_recording c) (_motion_detection_enabled c)
    (_audio_enabled c) (_color_bw c) v (_static_attrs c).

(** [self._static_attrs[key] = v] *)
Definition set__static_attrs_item (key : string) (v : PyVal) (c : Cache)
    : Cache :=
  mkCache (is_streaming c) (_is_recording c) (_motion_detection_enabled c)
    (_audio_enabled c) (_color_bw c) (_model c) (<[key := v]> (_static_attrs c)).

Definition modify_cache (f : Cache → Cache) : Py State unit :=
  modify (λ st, mkState (f (cache st)) (calls st) (log st) (scheduled st)).

(** A use of [self._camera]: the call is recorded, and a failure of the
    client surfaces as [AmcrestError]. *)
Definition device_call (self : Adapter) (c : Call) : Py State PyVal :=
  λ st,
    let st' := mkState (cache st) (calls st ++ [c]) (log st) (scheduled st) in
    match _camera self (calls st) c with
    | Ok v => (Normal v, st')
    | Fail detail => (Raised (AmcrestError detail), st')
    end.

Definition emit (lvl : Level) (fmt : string) (a : list PyVal)
    : Py State unit :=
  modify (λ st,
    mkState (cache st) (calls st) (log st ++ [mkLog lvl fmt a]) (scheduled st)).

(** [_LOGGER.error(fmt, *a)] and [_LOGGER.debug(fmt, *a)] *)
Definition _LOGGER_error := emit ERROR.
Definition _LOGGER_debug := emit DEBUG.

(** [self.schedule_update_ha_state()] *)
Definition schedule_update_ha_state : Py State unit :=
  modify (λ st, mkState (cache st) (calls st) (log st) (S (scheduled st))).

(** *** Module constants *)

Definition OPTIMISTIC : bool := true.

Definition CBW_COLOR : string := "color".
Definition CBW_AUTO : string := "auto".
Definition CBW_BW : string := "bw".
Definition CBW : list string := [CBW_COLOR; CBW_AUTO; CBW_BW].

(** [v == s] for a string [s]. *)
Definition py_eq_str (v : PyVal) (s : string) : bool :=
  match v with
  | PyStr s' => String.eqb s' s
  | _ => false
  end.

(** [xs.index(x)]: the first position of [x], a [ValueError] without one. *)
Fixpoint list_index (x : PyVal) (xs : list string) : Result Z :=
  match xs with
  | [] => Raised ValueError
  | y :: xs' =>
      if py_eq_str x y then Normal 0
      else match list_index x xs' with
           | Normal i => Normal (i + 1)
           | Raised e => Raised e
           end
  end.

(** [xs[i]] for an integer [i]: negative positions count from the end. *)
Definition list_getitem_int (xs : list string) (i : Z) : Result PyVal :=
  let n := Z.of_nat (length xs) in
  let j := if i <? 0 then i + n else i in
  if (0 <=? j) && (j <? n)
  then match xs !! Z.to_nat j with
       | Some x => Normal (PyStr x)
       | None => Raised IndexError
       end
  else Raised IndexError.

(** [xs[v]]: [bool] is a subclass of [int]; any other index is a
    [TypeError]. *)
Definition list_getitem (xs : list string) (v : PyVal) : Result PyVal :=
  match v with
  | PyInt i => list_getitem_int xs i
  | PyBool b => list_getitem_int xs (if b then 1 else 0)
  | _ => Raised TypeError
  end.

Definition is_None (v : PyVal) : bool :=
  match v with
  | PyNone => true
  | _ => false
  end.

(** [rec_mode['Manual' if enable else 'Automatic']] with
    [rec_mode = {'Automatic': 0, 'Manual': 1}]. *)
Definition rec_mode (enable : bool) : Z := if enable then 1 else 0.

(** ['enable' if enable else 'disable'] *)
Definition enable_word (enable : bool) : string :=
  if enable then "enable" else "disable".

(** [str(enable).lower()] *)
Definition str_lower (enable : bool) : string :=
  if enable then "true" else "false".

(** *** Property setters *)

(** [AmcrestCam.is_recording], the setter *)
Definition is_recording_setter (self : Adapter) (enable : bool)
    : Py State unit :=
  try_except_else
    (device_call self (SetAttr "record_mode" (PyInt (rec_mode enable))))
    (except_AmcrestError (λ error,
       _LOGGER_error "Could not %s %s camera recording due to error: %s"
         [PyStr (enable_word enable); PyStr (_name self); PyStr error]))
    (λ _,
       if OPTIMISTIC
       then modify_cache (set__is_recording (PyBool enable));;
            schedule_update_ha_state
       else mret tt).

(** [AmcrestCam.motion_detection_enabled], the setter *)
Definition motion_detection_enabled_setter (self : Adapter) (enable : bool)
    : Py State unit :=
  try_except_else
    (device_call self (SetAttr "motion_detection" (PyStr (str_lower enable))))
    (except_AmcrestError (λ error,
       _LOGGER_error
         "Could not %s %s camera motion detection due to error: %s"
         [PyStr (enable_word enable); PyStr (_name self); PyStr error]))
    (λ _,
       if OPTIMISTIC
       then modify_cache (set__motion_detection_enabled (PyBool enable));;
            schedule_update_ha_state
       else mret tt).

(** [AmcrestCam.video_enabled], the setter *)
Definition video_enabled_setter (self : Adapter) (enable : bool)
    : Py State unit :=
  try_except_else
    (device_call self (SetAttr "video_enabled" (PyBool enable)))
    (except_AmcrestError (λ error,
       _LOGGER_error "Could not %s %s camera video stream due to error: %s"
         [PyStr (enable_word enable); PyStr (_name self); PyStr error]))
    (λ _,
       if OPTIMISTIC
       then modify_cache (set_is_streaming (PyBool enable));;
            schedule_update_ha_state
       else mret tt).

(** [AmcrestCam.color_bw], the setter.  [CBW.index(cbw)] is evaluated
    inside the [try], before the client is used; its [ValueError] is not
    an [AmcrestError] and propagates. *)
Definition color_bw_setter (self : Adapter) (cbw : PyVal) : Py State unit :=
  try_except_else
    (i ← lift_result (list_index cbw CBW);
     device_call self (SetAttr "day_night_color" (PyInt i)))
    (except_AmcrestError (λ error,
       _LOGGER_error
         "Could not set %s camera color mode to %s due to error: %s"
         [PyStr (_name self); cbw; PyStr error]))
    (λ _,
       if OPTIMISTIC
       then modify_cache (set__color_bw cbw);;
            schedule_update_ha_state
       else mret tt).

(** [AmcrestCam.audio_enabled], the setter *)
Definition audio_enabled_setter (self : Adapter) (enable : bool)
    : Py State unit :=
  try_except_else
    (device_call self (SetAttr "audio_enabled" (PyBool enable)))
    (except_AmcrestError (λ error,
       _LOGGER_error "Could not %s %s camera audio stream due to error: %s"
         [PyStr (enable_word enable); PyStr (_name self); PyStr error]))
    (λ _,
       if OPTIMISTIC
       then modify_cache (set__audio_enabled (PyBool enable));;
            schedule_update_ha_state
       else mret tt).

(** *** Utility methods *)

(** [AmcrestCam._get_cam_attr] *)
Definition _get_cam_attr (self : Adapter) (attr : string) : Py State PyVal :=
  try_except
    (device_call self (GetAttr attr))
    (except_AmcrestError (λ error,
       _LOGGER_error "Could not get %s camera %s due to error: %s"
         [PyStr (_name self); PyStr attr; PyStr error];;
       mret PyNone)).

(** [AmcrestCam._update_cam_attr] *)
Definition _update_cam_attr (self : Adapter) (attr : string)
    : Py State unit :=
  value ← _get_cam_attr self attr;
  if is_None value then mret tt
  else
    v ← lift_result (_extract_attr value "=");
    modify_cache (set__static_attrs_item attr v).

(** The items a value yields when it is iterated; a value that is not
    iterable is a [TypeError]. *)
Definition py_iter (v : PyVal) : Result (list PyVal) :=
  match v with
  | PyTuple items => Normal items
  | PyStr s =>
      Normal ((λ c, PyStr (String c EmptyString)) <$> list_ascii_of_string s)
  | PyBytes b =>
      Normal ((λ c, PyInt (Z.of_nat (nat_of_ascii c)))
                <$> list_ascii_of_string b)
  | PyNone | PyBool _ | PyInt _ => Raised TypeError
  end.

(** [a, b = v]: a [ValueError] unless [v] yields exactly two items. *)
Definition unpack2 (v : PyVal) : Result (PyVal * PyVal) :=
  match py_iter v with
  | Normal [a; b] => Normal (a, b)
  | Normal _ => Raised ValueError
  | Raised e => Raised e
  end.

(** [AmcrestCam._update_static_attrs] *)
Definition _update_static_attrs (self : Adapter) : Py State unit :=
  for_each ["hardware_version"; "machine_name"; "serial_number"]
    (_update_cam_attr self);;
  try_except_else
    (v ← _get_cam_attr self "software_information";
     lift_result (unpack2 v))
    (λ e,
       match e with
       | TypeError => Some (mret tt)
       | ValueError =>
           Some (_LOGGER_error "Unexpected %s camera software_information"
                   [PyStr (_name self)])
       | _ => None
       end)
    (λ '(sw_ver, sw_date),
       v ← lift_result (_extract_attr sw_ver "=");
       modify_cache (set__static_attrs_item "software_version" v);;
       b ← lift_result (_extract_attr sw_date ":");
       modify_cache (set__static_attrs_item "software_build" b)).

(** *** Refresh *)

(** [AmcrestCam.update] *)
Definition update (self : Adapter) : Py State unit :=
  _LOGGER_debug "Pulling data from %s camera" [PyStr (_name self)];;
  try_except
    (st ← get_state;
     (if is_None (_model (cache st))
      then v ← _get_cam_attr self "device_type";
           m ← lift_result (_extract_attr v "=");
           modify_cache (set__model m)
      else mret tt);;
     st ← get_state;
     (if bool_decide (_static_attrs (cache st) = ∅)
      then _update_static_attrs self
      else mret tt);;
     v ← device_call self (GetAttr "video_enabled");
     modify_cache (set_is_streaming v);;
     v ← device_call self (GetAttr "record_mode");
     modify_cache (set__is_recording (PyBool (py_eq_str v "Manual")));;
     v ← device_call self (CallMethod "is_motion_detector_on" []);
     modify_cache (set__motion_detection_enabled v);;
     v ← device_call self (GetAttr "audio_enabled");
     modify_cache (set__audio_enabled v);;
     v ← device_call self (GetAttr "day_night_color");
     c ← lift_result (list_getitem CBW v);
     modify_cache (set__color_bw c))
    (except_AmcrestError (λ error,
       _LOGGER_error "Could not get %s camera attributes due to error: %s"
         [PyStr (_name self); PyStr error])).

(** *** Commands *)

(** [AmcrestCam.turn_off] *)
Definition turn_off (self : Adapter) : Py State unit :=
  is_recording_setter self false;;
  video_enabled_setter self false.

(** [AmcrestCam.turn_on] *)
Definition turn_on (self : Adapter) : Py State unit :=
  video_enabled_setter self true.

Definition enable_motion_detection (self : Adapter) : Py State unit :=
  motion_detection_enabled_setter self true.

Definition disable_motion_detection (self : Adapter) : Py State unit :=
  motion_detection_enabled_setter self false.

Definition enable_recording (self : Adapter) : Py State unit :=
  is_recording_setter self true.

Definition disable_recording (self : Adapter) : Py State unit :=
  is_recording_setter self false.

(** [AmcrestCam.goto_preset] *)
Definition goto_preset (self : Adapter) (preset : PyVal) : Py State unit :=
  try_except
    (device_call self
       (CallMethod "go_to_preset"
          [("action", PyStr "start"); ("preset_point_number", preset)]);;
     mret tt)
    (except_AmcrestError (λ error,
       _LOGGER_error "Could not move %s camera to preset %i due to error: %s"
         [PyStr (_name self); preset; PyStr error])).

Definition set_color_bw (self : Adapter) (cbw : PyVal) : Py State unit :=
  color_bw_setter self cbw.

Definition enable_audio (self : Adapter) : Py State unit :=
  audio_enabled_setter self true.

Definition disable_audio (self : Adapter) : Py State unit :=
  audio_enabled_setter self false.

(** [AmcrestCam.tour_on] *)
Definition tour_on (self : Adapter) : Py State unit :=
  try_except
    (device_call self (CallMethod "tour" [("start", PyBool true)]);; mret tt)
    (except_AmcrestError (λ error,
       _LOGGER_error "Could not start %s camera tour due to error: %s"
         [PyStr (_name self); PyStr error])).

(** [AmcrestCam.tour_off] *)
Definition tour_off (self : Adapter) : Py State unit :=
  try_except
    (device_call self (CallMethod "tour" [("start", PyBool false)]);; mret tt)
    (except_AmcrestError (λ error,
       _LOGGER_error "Could not stop %s camera tour due to error: %s"
         [PyStr (_name self); PyStr error])).

(** [AmcrestCam.should_poll] *)
Definition should_poll : bool := negb OPTIMISTIC.

(** ** Live stream hand-off *)

(** What the hand-off asks of its collaborators (the host's relay helpers,
    the client's URL builders and the transcoding wrapper), in order. *)
Inductive StreamEvent : Type :=
| EvSuperStream
| EvMjpegUrl
| EvProxyWeb (url : PyVal)
| EvRtspUrl
| EvOpenCamera (url : PyVal)
| EvProxyStream
| EvClose.

(** How each collaborator answers when it is called or awaited: it
    returns, or an exception (an error, or [CancelledError] when the task
    is cancelled while it waits) is raised at that point. *)
Record StreamEnv : Type := mkStreamEnv {
  super_handle_async_mjpeg_stream : Result PyVal;
  mjpeg_url : Result PyVal;
  async_aiohttp_proxy_web : Result PyVal;
  rtsp_url : Result PyVal;
  open_camera : Result unit;
  async_aiohttp_proxy_stream : Result PyVal;
  close : Result unit
}.

Definition perform {A} (ev : StreamEvent) (r : Result A)
    : Py (list StreamEvent) A :=
  λ tr, (r, tr ++ [ev]).

(** [AmcrestCam.handle_async_mjpeg_stream] *)
Definition handle_async_mjpeg_stream (self : Adapter) (env : StreamEnv)
    : Py (list StreamEvent) PyVal :=
  match _stream_source self with
  | snapshot => perform EvSuperStream (super_handle_async_mjpeg_stream env)
  | mjpeg =>
      streaming_url ← perform EvMjpegUrl (mjpeg_url env);
      perform (EvProxyWeb streaming_url) (async_aiohttp_proxy_web env)
  | rtsp =>
      streaming_url ← perform EvRtspUrl (rtsp_url env);
      perform (EvOpenCamera streaming_url) (open_camera env);;
      try_finally
        (perform EvProxyStream (async_aiohttp_proxy_stream env))
        (perform EvClose (close env))
  end.

(** ** Registry and service router *)

(** A camera entity: its fixed part and its current state. *)
Record Camera : Type := mkCamera {
  adapter : Adapter;
  state : State
}.

(** [hass.data[DATA_AMCREST_CAMS]], [None] while the key is absent.  A
    camera is referred to by its position in the list. *)
Record Hass : Type := mkHass {
  data_amcrest_cams : option (list Camera)
}.

(** [AmcrestCam.async_added_to_hass] *)
Definition async_added_to_hass (cam : Camera) (hass : Hass) : Hass :=
  mkHass (Some (default [] (data_amcrest_cams hass) ++ [cam])).

Record ServiceCall : Type := mkServiceCall {
  service : string;
  data : gmap string PyVal
}.

Definition ATTR_ENTITY_ID : string := "entity_id".
Definition ATTR_PRESET : string := "preset".
Definition ATTR_COLOR_BW : string := "color_bw".

Definition SERVICE_ENABLE_RECORDING : string := "amcrest_enable_recording".
Definition SERVICE_DISABLE_RECORDING : string := "amcrest_disable_recording".
Definition SERVICE_GOTO_PRESET : string := "amcrest_goto_preset".
Definition SERVICE_SET_COLOR_BW : string := "amcrest_set_color_bw".
Definition SERVICE_AUDIO_ON : string := "amcrest_audio_on".
Definition SERVICE_AUDIO_OFF : string := "amcrest_audio_off".
Definition SERVICE_TOUR_ON : string := "amcrest_tour_on".
Definition SERVICE_TOUR_OFF : string := "amcrest_tour_off".

(** The positions, counted from [k], of the cameras that satisfy [p]. *)
Fixpoint positions_from (k : nat) (p : Camera → bool) (cams : list Camera)
    : list nat :=
  match cams with
  | [] => []
  | cam :: cams' =>
      if p cam then k :: positions_from (S k) p cams'
      else positions_from (S k) p cams'
  end.

(** Run a method of the camera at position [i] on its own state.  The
    positions handed out by [target_cameras] always exist; elsewhere
    nothing happens. *)
Definition on_camera (i : nat) (method : Adapter → Py State unit)
    : Py Hass unit :=
  λ hass,
    match data_amcrest_cams hass with
    | Some cams =>
        match cams !! i with
        | Some cam =>
            match method (adapter cam) (state cam) with
            | (r, st') =>
                (r, mkHass (Some (<[i := mkCamera (adapter cam) st']> cams)))
            end
        | None => (Normal tt, hass)
        end
    | None => (Normal tt, hass)
    end.

Section Router.

(** The host's target-resolution helper, which turns the [entity_id]
    entry of a service call into entity identifiers. *)
Variable extract_entity_ids : Hass → ServiceCall → list string.

(** [target_cameras], the generator in [async_setup_platform] *)
Definition target_cameras (hass : Hass) (call : ServiceCall) : list nat :=
  match data_amcrest_cams hass with
  | Some cams =>
      let entity_ids :=
        if bool_decide (ATTR_ENTITY_ID ∈ dom (data call))
        then Some (extract_entity_ids hass call)
        else None in
      positions_from 0
        (λ camera,
           match entity_ids with
           | None => true
           | Some ids => bool_decide (entity_id (adapter camera) ∈ ids)
           end)
        cams
  | None => []
  end.

(** The loop shared by the three handlers: the command is awaited for
    each target in turn, and the targets that are polled are collected
    for a forced refresh. *)
Fixpoint for_targets (targets : list nat)
    (command : Adapter → Py State unit) (update_tasks : list nat)
    : Py Hass (list nat) :=
  match targets with
  | [] => mret update_tasks
  | camera :: targets' =>
      on_camera camera command;;
      if negb should_poll
      then for_targets targets' command update_tasks
      else for_targets targets' command (update_tasks ++ [camera])
  end.

(** The [if]/[elif] chain of [async_service_handler] *)
Definition service_command (name : string) (self : Adapter)
    : Py State unit :=
  if String.eqb name SERVICE_ENABLE_RECORDING then enable_recording self
  else if String.eqb name SERVICE_DISABLE_RECORDING
  then disable_recording self
  else if String.eqb name SERVICE_AUDIO_ON then enable_audio self
  else if String.eqb name SERVICE_AUDIO_OFF then disable_audio self
  else if String.eqb name SERVICE_TOUR_ON then tour_on self
  else if String.eqb name SERVICE_TOUR_OFF then tour_off self
  else mret tt.

(** [async_service_handler]; the result is the list of refreshes that
    is handed to [asyncio.wait]. *)
Definition async_service_handler (call : ServiceCall)
    : Py Hass (list nat) :=
  hass ← get_state;
  for_targets (target_cameras hass call)
    (service_command (service call)) [].

(** [async_goto_preset] *)
Definition async_goto_preset (call : ServiceCall) : Py Hass (list nat) :=
  let preset := default PyNone (data call !! ATTR_PRESET) in
  hass ← get_state;
  for_targets (target_cameras hass call)
    (λ self, goto_preset self preset) [].

(** [async_set_color_bw] *)
Definition async_set_color_bw (call : ServiceCall) : Py Hass (list nat) :=
  let cbw := default PyNone (data call !! ATTR_COLOR_BW) in
  hass ← get_state;
  for_targets (target_cameras hass call)
    (λ self, set_color_bw self cbw) [].

End Router.

(** ** Vocabulary of the properties *)

(** The mutation commands that have a cached field. *)
Inductive Command : Type :=
| Recording (enable : bool)
| MotionDetection (enable : bool)
| VideoStream (enable : bool)
| Audio (enable : bool)
| ColorMode (cbw : PyVal).

Definition run_command (self : Adapter) (cmd : Command) : Py State unit :=
  match cmd with
  | Recording enable => is_recording_setter self enable
  | MotionDetection enable => motion_detection_enabled_setter self enable
  | VideoStream enable => video_enabled_setter self enable
  | Audio enable => audio_enabled_setter self enable
  | ColorMode cbw => color_bw_setter self cbw
  end.

(** The scalar fields of the cache, by name. *)
Inductive Field : Type :=
| F_is_streaming
| F_is_recording
| F_motion_detection_enabled
| F_audio_enabled
| F_color_bw
| F_model.

Definition field_value (f : Field) (c : Cache) : PyVal :=
  match f with
  | F_is_streaming => is_streaming c
  | F_is_recording => _is_recording c
  | F_motion_detection_enabled => _motion_detection_enabled c
  | F_audio_enabled => _audio_enabled c
  | F_color_bw => _color_bw c
  | F_model => _model c
  end.

(** The field a command stands for and the value it requests. *)
Definition command_field (cmd : Command) : Field :=
  match cmd with
  | Recording _ => F_is_recording
  | MotionDetection _ => F_motion_detection_enabled
  | VideoStream _ => F_is_streaming
  | Audio _ => F_audio_enabled
  | ColorMode _ => F_color_bw
  end.

Definition command_value (cmd : Command) : PyVal :=
  match cmd with
  | Recording enable | MotionDetection enable
  | VideoStream enable | Audio enable => PyBool enable
  | ColorMode cbw => cbw
  end.

(** The write a command is expected to attempt on the device: recording
    is the mode number (automatic 0, manual 1), the color mode is the
    position of the token among the three.  A color token outside the
    three has no write. *)
Definition command_write (cmd : Command) : option Call :=
  match cmd with
  | Recording enable =>
      Some (SetAttr "record_mode" (PyInt (if enable then 1 else 0)))
  | MotionDetection enable =>
      Some (SetAttr "motion_detection"
              (PyStr (if enable then "true" else "false")))
  | VideoStream enable => Some (SetAttr "video_enabled" (PyBool enable))
  | Audio enable => Some (SetAttr "audio_enabled" (PyBool enable))
  | ColorMode cbw =>
      if py_eq_str cbw "color" then Some (SetAttr "day_night_color" (PyInt 0))
      else if py_eq_str cbw "auto"
      then Some (SetAttr "day_night_color" (PyInt 1))
      else if py_eq_str cbw "bw"
      then Some (SetAttr "day_night_color" (PyInt 2))
      else None
  end.

(** The error record expected of a command whose write failed: it names
    the camera, the action and the failure. *)
Definition failure_record (self : Adapter) (cmd : Command) (detail : string)
    : LogRecord :=
  let on_off (what : string) (enable : bool) :=
    mkLog ERROR ("Could not %s %s camera " +:+ what +:+ " due to error: %s")
      [PyStr (if enable then "enable" else "disable");
       PyStr (_name self); PyStr detail] in
  match cmd with
  | Recording enable => on_off "recording" enable
  | MotionDetection enable => on_off "motion detection" enable
  | VideoStream enable => on_off "video stream" enable
  | Audio enable => on_off "audio stream" enable
  | ColorMode cbw =>
      mkLog ERROR "Could not set %s camera color mode to %s due to error: %s"
        [PyStr (_name self); cbw; PyStr detail]
  end.

(** The five reads of a refresh, in the order [update] makes them, and
    the fields they are stored in. *)
Definition refresh_reads : list Call :=
  [GetAttr "video_enabled"; GetAttr "record_mode";
   CallMethod "is_motion_detector_on" []; GetAttr "audio_enabled";
   GetAttr "day_night_color"].

Definition refresh_fields : list Field :=
  [F_is_streaming; F_is_recording; F_motion_detection_enabled;
   F_audio_enabled; F_color_bw].

(** The reads that fill the static-attribute map. *)
Definition static_reads : list Call :=
  [GetAttr "hardware_version"; GetAttr "machine_name";
   GetAttr "serial_number"; GetAttr "software_information"].

(** The [bytes] values. *)
Definition is_bytes (v : PyVal) : bool :=
  match v with
  | PyBytes _ => true
  | PyNone | PyBool _ | PyInt _ | PyStr _ | PyTuple _ => false
  end.

(** A value that is neither [bytes] nor a tuple with a [bytes] item: the
    parsing steps of a refresh digest it without a [TypeError]. *)
Definition bytes_free (v : PyVal) : bool :=
  match v with
  | PyBytes _ => false
  | PyTuple items => forallb (λ item, negb (is_bytes item)) items
  | PyNone | PyBool _ | PyInt _ | PyStr _ => true
  end.

(** The reads a refresh from [st] makes before the five reads of every
    refresh: the model while it is unknown, the static attributes while
    their map is empty. *)
Definition first_reads (st : State) : list Call :=
  (if is_None (_model (cache st)) then [GetAttr "device_type"] else [])
  ++ (if bool_decide (_static_attrs (cache st) = ∅) then static_reads else []).

(** What the host may ask of a camera over its life. *)
Inductive Operation : Type :=
| Refresh
| Mutate (cmd : Command)
| TurnOff
| TurnOn
| GotoPreset (preset : PyVal)
| TourOn
| TourOff.

Definition run_operation (self : Adapter) (op : Operation) : Py State unit :=
  match op with
  | Refresh => update self
  | Mutate cmd => run_command self cmd
  | TurnOff => turn_off self
  | TurnOn => turn_on self
  | GotoPreset preset => goto_preset self preset
  | TourOn => tour_on self
  | TourOff => tour_off self
  end.

(** A history of operations, each run whatever the outcome of the one
    before. *)
Fixpoint run_operations (self : Adapter) (ops : list Operation) (st : State)
    : State :=
  match ops with
  | [] => st
  | op :: ops' => run_operations self ops' (run_operation self op st).2
  end.

(** [sep] occurs somewhere in [s]. *)
Fixpoint occurs (sep s : string) : bool :=
  match s with
  | EmptyString => String.prefix sep s
  | String _ s' => String.prefix sep s || occurs sep s'
  end.

(** The values that have no [split] attribute. *)
Definition lacks_split (v : PyVal) : bool :=
  match v with
  | PyStr _ | PyBytes _ => false
  | PyNone | PyBool _ | PyInt _ | PyTuple _ => true
  end.

(** The two halves of the guarded suite of [update]: the reads that are
    made once (model and static attributes), and the five reads made on
    every refresh.  [update_unfold] below shows that [update] is the one
    followed by the other inside its [try]. *)
Definition refresh_static (self : Adapter) : Py State unit :=
  st ← get_state;
  (if is_None (_model (cache st))
   then v ← _get_cam_attr self "device_type";
        m ← lift_result (_extract_attr v "=");
        modify_cache (set__model m)
   else mret tt);;
  st ← get_state;
  if bool_decide (_static_attrs (cache st) = ∅)
  then _update_static_attrs self
  else mret tt.

Definition refresh_dynamic (self : Adapter) : Py State unit :=
  v ← device_call self (GetAttr "video_enabled");
  modify_cache (set_is_streaming v);;
  v ← device_call self (GetAttr "record_mode");
  modify_cache (set__is_recording (PyBool (py_eq_str v "Manual")));;
  v ← device_call self (CallMethod "is_motion_detector_on" []);
  modify_cache (set__motion_detection_enabled v);;
  v ← device_call self (GetAttr "audio_enabled");
  modify_cache (set__audio_enabled v);;
  v ← device_call self (GetAttr "day_night_color");
  c ← lift_result (list_getitem CBW v);
  modify_cache (set__color_bw c).

(** What a step of the static half may do to the state: it adds calls
    that are none of the five refresh reads, it may log, and it leaves the
    five refreshed fields and the schedule alone. *)
Definition static_step (st st' : State) : Prop :=
  (∃ pre, calls st' = calls st ++ pre ∧ Forall (λ c, c ∉ refresh_reads) pre)
  ∧ (∀ f, f ∈ refresh_fields →
       field_value f (cache st') = field_value f (cache st))
  ∧ scheduled st' = scheduled st.

(** A result that is not an [AmcrestError]: the [except] clause of
    [update] lets it pass. *)
Definition passes_amcrest_clause {A} (r : Result A) : Prop :=
  ∀ detail, r ≠ Raised (AmcrestError detail).

(** The device's answer to the [i]-th refresh read, asked after the
    reads before it, from the state [st]. *)
Definition reply_at (self : Adapter) (st : State) (i : nat) : Reply :=
  _camera self (calls st ++ take i refresh_reads)
    (default (GetAttr EmptyString) (refresh_reads !! i)).

Definition is_close (ev : StreamEvent) : bool :=
  match ev with
  | EvClose => true
  | _ => false
  end.

(** ** Devices used in the examples *)

(** The property or method a call names. *)
Definition call_name (c : Call) : string :=
  match c with
  | GetAttr attr | SetAttr attr _ => attr
  | CallMethod name _ => name
  end.

Fixpoint table_reply (table : list (string * Reply)) (name : string)
    : Reply :=
  match table with
  | [] => Ok PyNone
  | (n, r) :: table' => if String.eqb n name then r else table_reply table' name
  end.

(** A camera that answers every read. *)
Definition healthy_table : list (string * Reply) :=
  [("device_type", Ok (PyStr "type=IP2M-841B"));
   ("hardware_version", Ok (PyStr "version=1.00"));
   ("machine_name", Ok (PyStr "name=AMC0001"));
   ("serial_number", Ok (PyStr "sn=AMC0001234"));
   ("software_information",
    Ok (PyTuple [PyStr "version=2.420.AC00"; PyStr "Build Date:2018-01-01"]));
   ("video_enabled", Ok (PyBool true));
   ("record_mode", Ok (PyStr "Manual"));
   ("is_motion_detector_on", Ok (PyBool true));
   ("audio_enabled", Ok (PyBool true));
   ("day_night_color", Ok (PyInt 1))].

(** A camera that answers its first ten calls (one full first refresh)
    and then reports the video stream as off and fails everything else. *)
Definition flaky_device : Device :=
  λ history c,
    if (length history <? 10)%nat
    then table_reply healthy_table (call_name c)
    else if String.eqb (call_name c) "video_enabled" then Ok (PyBool false)
    else Fail "connection reset".

Definition porch : Adapter :=
  mkAdapter "porch" flaky_device "camera.porch" rtsp.

(** A camera whose serial number cannot be read during its first five
    calls and that answers every read afterwards. *)
Definition slow_serial_device : Device :=
  λ history c,
    if (length history <? 5)%nat && String.eqb (call_name c) "serial_number"
    then Fail "busy"
    else table_reply healthy_table (call_name c).

Definition garage : Adapter :=
  mkAdapter "garage" slow_serial_device "camera.garage" mjpeg.

(** A camera whose software information is a bare number. *)
Definition terse_device : Device :=
  λ _ c,
    if String.eqb (call_name c) "software_information" then Ok (PyInt 7)
    else table_reply healthy_table (call_name c).

Definition attic : Adapter :=
  mkAdapter "attic" terse_device "camera.attic" snapshot.

(** The color mode a history of calls leaves a camera in: the last value
    written, [current] when none was. *)
Fixpoint written_color (history : list Call) (current : PyVal) : PyVal :=
  match history with
  | [] => current
  | SetAttr attr v :: history' =>
      written_color history'
        (if String.eqb attr "day_night_color" then v else current)
  | _ :: history' => written_color history' current
  end.

(** A camera that keeps the color mode written to it and reports it when
    asked, full color before any write; it answers every other read. *)
Definition keeping_device : Device :=
  λ history c,
    match c with
    | GetAttr attr =>
        if String.eqb attr "day_night_color"
        then Ok (written_color history (PyInt 0))
        else table_reply healthy_table attr
    | _ => table_reply healthy_table (call_name c)
    end.

Definition hall : Adapter :=
  mkAdapter "hall" keeping_device "camera.hall" mjpeg.

(** A viewer that goes away while the transcoded stream is relayed. *)
Definition cancelled_relay : StreamEnv :=
  {| super_handle_async_mjpeg_stream := Normal PyNone;
     mjpeg_url := Normal (PyStr "http://porch/mjpg");
     async_aiohttp_proxy_web := Normal PyNone;
     rtsp_url := Normal (PyStr "rtsp://porch/live");
     open_camera := Normal tt;
     async_aiohttp_proxy_stream := Raised CancelledError;
     close := Normal tt |}.

(** A registry of two cameras, and a resolution helper that returns the
    strings listed under [entity_id]. *)
Definition two_cameras : Hass :=
  async_added_to_hass (mkCamera garage init_state)
    (async_added_to_hass (mkCamera porch init_state) (mkHass None)).

Definition listed_entity_ids (hass : Hass) (call : ServiceCall)
    : list string :=
  match data call !! ATTR_ENTITY_ID with
  | Some (PyTuple items) =>
      omap (λ v, match v with PyStr s => Some s | _ => None end) items
  | Some (PyStr s) => [s]
  | _ => []
  end.

Definition record_on (entity : string) : ServiceCall :=
  mkServiceCall SERVICE_ENABLE_RECORDING {[ ATTR_ENTITY_ID := PyStr entity ]}.

(** ** Further methods of the adapter *)

(** The truth value of a value, as [if] and [not] take it. *)
Definition py_truth (v : PyVal) : bool :=
  match v with
  | PyNone => false
  | PyBool b => b
  | PyInt n => negb (n =? 0)
  | PyStr s | PyBytes s =>
      match s with
      | EmptyString => false
      | String _ _ => true
      end
  | PyTuple items =>
      match items with
      | [] => false
      | _ :: _ => true
      end
  end.

(** The property getters the other methods use. *)
Definition is_recording (st : State) : PyVal := _is_recording (cache st).


Definition video_enabled (st : State) : PyVal := is_streaming (cache st).

Definition is_on (st : State) : PyVal := video_enabled st.






(** [AmcrestCam.async_camera_image].  [_resolution] is [self._resolution],
    handed to [snapshot] as its one positional argument (listed without
    a keyword).  What [snapshot] returns is an object of the client's
    HTTP library, and the image is its [data] attribute; [data] is the
    read of that attribute: the image, or the exception the read raises
    (an [AttributeError] when the object has no such attribute, as [None]
    has not).  The read is made inside the [try], whose one clause
    catches an [AmcrestError] and lets every other exception pass.  The
    snapshot lock orders overlapping requests and has no effect on a
    single one. *)
Definition async_camera_image (self : Adapter) (_resolution : PyVal)
    (data : PyVal → Result PyVal) : Py State PyVal :=
  st ← get_state;
  if negb (py_truth (is_on st))
  then
    _LOGGER_error "Attempt to take snaphot when %s camera is off"
      [PyStr (_name self)];;
    mret PyNone
  else
    try_except
      (response ← device_call self
                    (CallMethod "snapshot" [(EmptyString, _resolution)]);
       lift_result (data response))
      (except_AmcrestError (λ error,
         _LOGGER_error "Could not get image from %s camera due to error: %s"
           [PyStr (_name self); PyStr error];;
         mret PyNone)).

(** *** Service registration *)

(** The three coroutines a service is registered with, and the three
    schemas. *)
Inductive Handler : Type :=
| H_async_service_handler
| H_async_goto_preset
| H_async_set_color_bw.

Inductive Schema : Type :=
| CAMERA_SERVICE_SCHEMA
| SERVICE_GOTO_PRESET_SCHEMA
| SERVICE_SET_COLOR_BW_SCHEMA.

(** [services] in [async_setup_platform] *)
Definition services : list (string * (Handler * Schema)) :=
  [(SERVICE_ENABLE_RECORDING, (H_async_service_handler, CAMERA_SERVICE_SCHEMA));
   (SERVICE_DISABLE_RECORDING,
    (H_async_service_handler, CAMERA_SERVICE_SCHEMA));
   (SERVICE_GOTO_PRESET, (H_async_goto_preset, SERVICE_GOTO_PRESET_SCHEMA));
   (SERVICE_SET_COLOR_BW,
    (H_async_set_color_bw, SERVICE_SET_COLOR_BW_SCHEMA));
   (SERVICE_AUDIO_OFF, (H_async_service_handler, CAMERA_SERVICE_SCHEMA));
   (SERVICE_AUDIO_ON, (H_async_service_handler, CAMERA_SERVICE_SCHEMA));
   (SERVICE_TOUR_OFF, (H_async_service_handler, CAMERA_SERVICE_SCHEMA));
   (SERVICE_TOUR_ON, (H_async_service_handler, CAMERA_SERVICE_SCHEMA))].

(** The registration block that ends [async_setup_platform], on the
    services the host holds for the camera domain: when the first name
    of [services] is registered nothing is done, otherwise every entry of
    [services] is registered in turn, replacing what was there. *)
Definition register_services (registered : gmap string (Handler * Schema))
    : gmap string (Handler * Schema) :=
  match services with
  | (first, _) :: _ =>
      if bool_decide (is_Some (registered !! first)) then registered
      else foldl (λ reg service, <[service.1 := service.2]> reg)
             registered services
  | [] => registered
  end.

(** The coroutine behind a handler. *)
Definition run_handler (extract_entity_ids : Hass → ServiceCall → list string)
    (h : Handler) : ServiceCall → Py Hass (list nat) :=
  match h with
  | H_async_service_handler => async_service_handler extract_entity_ids
  | H_async_goto_preset => async_goto_preset extract_entity_ids
  | H_async_set_color_bw => async_set_color_bw extract_entity_ids
  end.

(** ** Vocabulary of the further properties *)

(** The keys [_update_static_attrs] writes. *)
Definition static_names : list string :=
  ["hardware_version"; "machine_name"; "serial_number";
   "software_version"; "software_build"].

(** A cache as the adapter keeps it: the recording flag is a boolean,
    the color mode is unknown or one of the three tokens, and the static
    map has no key besides the five it is filled with. *)
Definition cache_ok (c : Cache) : Prop :=
  (∃ b, _is_recording c = PyBool b)
  ∧ (_color_bw c = PyNone ∨ ∃ t, t ∈ CBW ∧ _color_bw c = PyStr t)
  ∧ ∀ k, is_Some (_static_attrs c !! k) → k ∈ static_names.

(** Every read a refresh may make. *)
Definition all_reads : list Call :=
  GetAttr "device_type" :: static_reads ++ refresh_reads.

(** The camera after a command of the router has run on it. *)
Definition commanded (command : Adapter → Py State unit) (cam : Camera)
    : Camera :=
  mkCamera (adapter cam) (command (adapter cam) (state cam)).2.

Definition is_open (ev : StreamEvent) : bool :=
  match ev with
  | EvOpenCamera _ => true
  | _ => false
  end.

(** What filling the static map may do to the state: it adds calls that
    are static reads, it may log and add keys among the five static
    names, and it leaves the scalar fields and the schedule alone. *)
Definition static_fill (st st' : State) : Prop :=
  (∃ pre, calls st' = calls st ++ pre ∧ Forall (λ c, c ∈ static_reads) pre)
  ∧ (∀ f, field_value f (cache st') = field_value f (cache st))
  ∧ (∀ k, is_Some (_static_attrs (cache st') !! k) →
       is_Some (_static_attrs (cache st) !! k) ∨ k ∈ static_names)
  ∧ scheduled st' = scheduled st.

(** The outcomes of the parsing steps: normal, or the [TypeError] of a
    [bytes] value. *)
Definition parse_outcome (r : Result unit) : Prop :=
  r = Normal tt ∨ r = Raised TypeError.

(** A call that asks the device to change or do something, as opposed to
    a read of a property. *)
Definition is_write (c : Call) : bool :=
  match c with
  | GetAttr _ => false
  | SetAttr _ _ | CallMethod _ _ => true
  end.

(** The typed part of [cache_ok]. *)
Definition typed_fields (c : Cache) : Prop :=
  (∃ b, _is_recording c = PyBool b)
  ∧ (_color_bw c = PyNone ∨ ∃ t, t ∈ CBW ∧ _color_bw c = PyStr t).

(** [sep] occurs in [cur +:+ s] at a position inside [cur]. *)
Fixpoint occurs_upto (sep cur s : string) : bool :=
  match cur with
  | EmptyString => false
  | String _ cur' => String.prefix sep (cur +:+ s) || occurs_upto sep cur' s
  end.

(** A string that is empty or starts with a character that is no
    whitespace. *)
Definition headed (s : string) : Prop :=
  match s with
  | EmptyString => True
  | String c _ => is_space c = false
  end.

(** A step that changes nothing but the calls made and the errors
    logged. *)
Definition only_errors (st st' : State) : Prop :=
  cache st' = cache st
  ∧ scheduled st' = scheduled st
  ∧ ∃ errors, log st' = log st ++ errors
      ∧ Forall (λ record, level record = ERROR) errors.

(** * Properties *)

(** ** The model on concrete inputs *)

Example extract_version :
  _extract_attr (PyStr "software version=1.2.3") "=" = Normal (PyStr "1.2.3").
Proof. reflexivity. Qed.

Example extract_padded :
  _extract_attr (PyStr "sn = AMC01  ") "=" = Normal (PyStr "AMC01").
Proof. reflexivity. Qed.

Example split_overlap :
  str_split "aaa" "aa" = Normal [EmptyString; "a"].
Proof. reflexivity. Qed.

Example strip_control_characters :
  strip (String (ascii_of_nat 28) " 2.4 ") = "2.4".
Proof. reflexivity. Qed.

Example extract_bytes_raises :
  _extract_attr (PyBytes "sn=1") "=" = Raised TypeError.
Proof. reflexivity. Qed.

Example unpack_two_characters :
  unpack2 (PyStr "ab") = Normal (PyStr "a", PyStr "b").
Proof. reflexivity. Qed.

Example color_of_negative_index :
  list_getitem CBW (PyInt (-1)) = Normal (PyStr "bw")
  ∧ list_getitem CBW (PyInt 3) = Raised IndexError.
Proof. by split. Qed.

Example unknown_color_raises :
  color_bw_setter garage (PyStr "sepia") init_state
  = (Raised ValueError, init_state).
Proof. reflexivity. Qed.

Example first_refresh_of_garage :
  (update garage init_state).1 = Normal tt
  ∧ calls (update garage init_state).2
    = [GetAttr "device_type"; GetAttr "hardware_version";
       GetAttr "machine_name"; GetAttr "serial_number";
       GetAttr "software_information"; GetAttr "video_enabled";
       GetAttr "record_mode"; CallMethod "is_motion_detector_on" [];
       GetAttr "audio_enabled"; GetAttr "day_night_color"]
  ∧ _model (cache (update garage init_state).2) = PyStr "IP2M-841B"
  ∧ _color_bw (cache (update garage init_state).2) = PyStr "auto"
  ∧ _static_attrs (cache (update garage init_state).2) !! "software_build"
    = Some (PyStr "2018-01-01").
Proof. repeat split; vm_compute; reflexivity. Qed.

Example turn_off_on_a_dead_camera :
  turn_off (mkAdapter "shed" (λ _ _, Fail "unreachable") "camera.shed" rtsp)
    init_state
  = (Normal tt,
     mkState init_cache
       [SetAttr "record_mode" (PyInt 0); SetAttr "video_enabled" (PyBool false)]
       [mkLog ERROR "Could not %s %s camera recording due to error: %s"
          [PyStr "disable"; PyStr "shed"; PyStr "unreachable"];
        mkLog ERROR "Could not %s %s camera video stream due to error: %s"
          [PyStr "disable"; PyStr "shed"; PyStr "unreachable"]]
       0).
Proof. reflexivity. Qed.

(** ** One step of a statement *)

Lemma device_call_ok self c v st :
  _camera self (calls st) c = Ok v →
  device_call self c st
  = (Normal v, mkState (cache st) (calls st ++ [c]) (log st) (scheduled st)).
Proof. intros H. unfold device_call. by rewrite H. Qed.

Lemma device_call_fail self c detail st :
  _camera self (calls st) c = Fail detail →
  device_call self c st
  = (Raised (AmcrestError detail),
     mkState (cache st) (calls st ++ [c]) (log st) (scheduled st)).
Proof. intros H. unfold device_call. by rewrite H. Qed.

(** The position of a token of [CBW] and the token at a position. *)
Lemma CBW_index_getitem cbw :
  cbw ∈ CBW →
  ∃ i : nat, CBW !! i = Some cbw
    ∧ list_index (PyStr cbw) CBW = Normal (Z.of_nat i)
    ∧ list_getitem CBW (PyInt (Z.of_nat i)) = Normal (PyStr cbw).
Proof.
  unfold CBW, CBW_COLOR, CBW_AUTO, CBW_BW. intros Hin.
  repeat (apply elem_of_cons in Hin as [-> | Hin]);
    [ by exists 0%nat | by exists 1%nat | by exists 2%nat | ].
  by apply elem_of_nil in Hin.
Qed.

Lemma command_write_color cbw c :
  command_write (ColorMode cbw) = Some c →
  ∃ i, list_index cbw CBW = Normal i ∧ c = SetAttr "day_night_color" (PyInt i).
Proof.
  cbn. unfold CBW, CBW_COLOR, CBW_AUTO, CBW_BW. cbn.
  destruct (py_eq_str cbw "color"); [intros [= <-]; by eexists |].
  destruct (py_eq_str cbw "auto"); [intros [= <-]; by eexists |].
  destruct (py_eq_str cbw "bw"); [intros [= <-]; by eexists |].
  done.
Qed.

(** ** Mutation commands *)

(** C2.  Whatever the command, when the device client fails the write the
    command attempts, the command ends normally, the cache is what it was,
    the write was attempted once, nothing was scheduled, and one error
    record naming the camera, the action and the failure was logged. *)
Theorem command_failure_keeps_cache self cmd c detail st :
  command_write cmd = Some c →
  _camera self (calls st) c = Fail detail →
  run_command self cmd st
  = (Normal tt,
     mkState (cache st) (calls st ++ [c])
       (log st ++ [failure_record self cmd detail]) (scheduled st)).
Proof.
  intros Hw Hfail. destruct cmd as [e | e | e | e | cbw].
  1-4: destruct e; injection Hw as <-;
    unfold run_command, is_recording_setter, motion_detection_enabled_setter,
      video_enabled_setter, audio_enabled_setter, try_except_else, rec_mode,
      str_lower;
    by rewrite (device_call_fail _ _ _ _ Hfail).
  apply command_write_color in Hw as (i & Hi & ->).
  unfold run_command, color_bw_setter, try_except_else, mbind, Py_bind,
    lift_result.
  rewrite Hi. by rewrite (device_call_fail _ _ _ _ Hfail).
Qed.

Lemma command_failure_keeps_cache_witness :
  let self := mkAdapter "porch" (λ _ _, Fail "timed out") "camera.porch" rtsp in
  run_command self (Audio true) init_state
  = (Normal tt,
     mkState init_cache [SetAttr "audio_enabled" (PyBool true)]
       [mkLog ERROR "Could not %s %s camera audio stream due to error: %s"
          [PyStr "enable"; PyStr "porch"; PyStr "timed out"]] 0).
Proof.
  exact (command_failure_keeps_cache
           (mkAdapter "porch" (λ _ _, Fail "timed out") "camera.porch" rtsp)
           (Audio true) _ "timed out" init_state eq_refl eq_refl).
Defined.

(** C3.  Whatever the command, when the device client accepts the write
    and the module is optimistic, the command ends normally, the field of
    the command holds the requested value, every other field of the cache
    is what it was, and one state refresh was scheduled. *)
Theorem command_success_updates_one_field self cmd c v st :
  command_write cmd = Some c →
  _camera self (calls st) c = Ok v →
  OPTIMISTIC = true →
  let st' := (run_command self cmd st).2 in
  (run_command self cmd st).1 = Normal tt
  ∧ field_value (command_field cmd) (cache st') = command_value cmd
  ∧ (∀ f, f ≠ command_field cmd →
       field_value f (cache st') = field_value f (cache st))
  ∧ _static_attrs (cache st') = _static_attrs (cache st)
  ∧ scheduled st' = S (scheduled st)
  ∧ calls st' = calls st ++ [c]
  ∧ log st' = log st.
Proof.
  intros Hw Hok _. destruct cmd as [e | e | e | e | cbw].
  1-4: destruct e; injection Hw as <-;
    unfold run_command, is_recording_setter, motion_detection_enabled_setter,
      video_enabled_setter, audio_enabled_setter, try_except_else, rec_mode,
      str_lower;
    rewrite (device_call_ok _ _ _ _ Hok); cbn;
    (repeat split; try done); by intros [].
  apply command_write_color in Hw as (i & Hi & ->).
  unfold run_command, color_bw_setter, try_except_else, mbind, Py_bind,
    lift_result.
  rewrite Hi, (device_call_ok _ _ _ _ Hok). cbn.
  repeat split; try done. by intros [].
Qed.

Lemma command_success_updates_one_field_witness :
  let self := mkAdapter "porch" (λ _ _, Ok PyNone) "camera.porch" rtsp in
  let st' := (run_command self (ColorMode (PyStr "bw")) init_state).2 in
  _color_bw (cache st') = PyStr "bw" ∧ scheduled st' = 1%nat.
Proof.
  pose proof (command_success_updates_one_field
                (mkAdapter "porch" (λ _ _, Ok PyNone) "camera.porch" rtsp)
                (ColorMode (PyStr "bw")) _ PyNone init_state
                eq_refl eq_refl eq_refl) as (_ & Hf & _ & _ & Hs & _).
  split; [exact Hf | exact Hs].
Defined.

(** C4.  Turning the camera off asks the device, whatever it answers, to
    leave manual recording and then to stop the video stream, in that
    order, and ends normally; in particular the second write is attempted
    when the first one fails. *)
Theorem turn_off_attempts_both self st :
  (turn_off self st).1 = Normal tt
  ∧ calls (turn_off self st).2
    = calls st ++ [SetAttr "record_mode" (PyInt 0);
                   SetAttr "video_enabled" (PyBool false)].
Proof.
  unfold turn_off, is_recording_setter, video_enabled_setter, mbind, Py_bind,
    try_except_else, device_call. cbn.
  destruct (_camera self (calls st) _); cbn;
    destruct (_camera self (calls st ++ _) _); cbn;
    by rewrite <- app_assoc.
Qed.

(** ** Refresh *)

Lemma update_unfold self st :
  update self st
  = try_except (refresh_static self;; refresh_dynamic self)
      (except_AmcrestError (λ error,
         _LOGGER_error "Could not get %s camera attributes due to error: %s"
           [PyStr (_name self); PyStr error]))
      (mkState (cache st) (calls st)
         (log st ++ [mkLog DEBUG "Pulling data from %s camera"
                       [PyStr (_name self)]])
         (scheduled st)).
Proof.
  unfold update, refresh_static, refresh_dynamic, try_except, try_except_else,
    mbind, Py_bind, get_state, _LOGGER_debug, emit, modify. cbn.
  repeat case_match; simplify_eq; done.
Qed.

Lemma static_step_refl st : static_step st st.
Proof.
  split; [| done]. exists []. split; [by rewrite app_nil_r | constructor].
Qed.

Lemma static_step_trans st1 st2 st3 :
  static_step st1 st2 → static_step st2 st3 → static_step st1 st3.
Proof.
  intros [(p1 & Hc1 & Hp1) [Hf1 Hs1]] [(p2 & Hc2 & Hp2) [Hf2 Hs2]].
  split; [| split].
  - exists (p1 ++ p2). split.
    + by rewrite Hc2, Hc1, app_assoc.
    + by apply Forall_app.
  - intros f Hf. by rewrite Hf2, Hf1.
  - by rewrite Hs2.
Qed.

(** A call that differs from every call of an explicit list. *)
Ltac not_in_list :=
  let H := fresh in
  intros H; repeat (apply elem_of_cons in H as [H | H]; [discriminate |]);
  by apply elem_of_nil in H.

(** A goal about every field of [refresh_fields], field by field. *)
Ltac each_refresh_field :=
  let f := fresh "f" in
  let H := fresh in
  intros f H;
  repeat (apply elem_of_cons in H as [-> | H]; [done |]);
  by apply elem_of_nil in H.

(** A logged record or a change of the model or of the static map is a
    static step. *)
Lemma static_step_cache_log st c lg :
  (∀ f, f ∈ refresh_fields → field_value f c = field_value f (cache st)) →
  static_step st (mkState c (calls st) lg (scheduled st)).
Proof.
  intros Hf. split; [| done].
  exists []. split; [by rewrite app_nil_r | constructor].
Qed.

Lemma _get_cam_attr_spec self attr st :
  ∃ v lg,
    _get_cam_attr self attr st
    = (Normal v,
       mkState (cache st) (calls st ++ [GetAttr attr]) (log st ++ lg)
         (scheduled st))
    ∧ match _camera self (calls st) (GetAttr attr) with
      | Ok v' => v = v' ∧ lg = []
      | Fail detail =>
          v = PyNone
          ∧ lg = [mkLog ERROR "Could not get %s camera %s due to error: %s"
                    [PyStr (_name self); PyStr attr; PyStr detail]]
      end.
Proof.
  unfold _get_cam_attr, try_except, try_except_else, device_call.
  destruct (_camera self (calls st) (GetAttr attr)) as [v | d]; cbn.
  - exists v, []. by rewrite app_nil_r.
  - by eexists _, _.
Qed.

Lemma _get_cam_attr_static_step self attr st v st' :
  GetAttr attr ∉ refresh_reads →
  _get_cam_attr self attr st = (v, st') →
  static_step st st' ∧ ∃ v', v = Normal v'.
Proof.
  intros Hattr Hrun.
  destruct (_get_cam_attr_spec self attr st) as (v' & lg & Heq & _).
  rewrite Heq in Hrun. injection Hrun as <- <-.
  split; [| by eexists]. split; [| done].
  exists [GetAttr attr]. split; [done | by constructor].
Qed.

Lemma split_from_nonempty sep s skip cur : split_from sep s skip cur ≠ [].
Proof.
  revert skip cur.
  induction s as [| c s IH]; intros skip cur; cbn [split_from]; [done |].
  destruct skip; [| apply IH].
  destruct (String.prefix sep (String c s)); [done | apply IH].
Qed.

(** [_extract_attr] raises nothing but [TypeError]. *)
Lemma _extract_attr_raises v sep e :
  sep ≠ EmptyString → _extract_attr v sep = Raised e → e = TypeError.
Proof.
  intros Hsep. unfold _extract_attr, split_last_strip, str_split, last_item.
  destruct v as [| | | s | |]; try done; [| by intros [= <-]].
  destruct sep; [done |].
  destruct (last _) eqn:Hlast; [done |].
  apply last_None in Hlast. by apply split_from_nonempty in Hlast.
Qed.

Lemma _update_cam_attr_static_step self attr st r st' :
  GetAttr attr ∉ refresh_reads →
  _update_cam_attr self attr st = (r, st') →
  static_step st st' ∧ passes_amcrest_clause r.
Proof.
  intros Hattr. unfold _update_cam_attr, mbind, Py_bind.
  destruct (_get_cam_attr self attr st) as [v st1] eqn:Hget.
  apply _get_cam_attr_static_step in Hget as [Hstep [v' ->]]; [| done].
  destruct (is_None v').
  - intros [= <- <-]. by split.
  - unfold lift_result.
    destruct (_extract_attr v' "=") as [x | e] eqn:Hx.
    + cbn. intros [= <- <-]. split; [| done].
      eapply static_step_trans; [exact Hstep |].
      apply static_step_cache_log. each_refresh_field.
    + intros [= <- <-]. split; [done |].
      apply _extract_attr_raises in Hx as ->; done.
Qed.

Lemma for_each_static_step (self : Adapter) attrs st r st' :
  Forall (λ attr, GetAttr attr ∉ refresh_reads) attrs →
  for_each attrs (_update_cam_attr self) st = (r, st') →
  static_step st st' ∧ passes_amcrest_clause r.
Proof.
  intros Hattrs. revert st.
  induction Hattrs as [| attr attrs Hattr _ IH]; intros st; cbn.
  - intros [= <- <-]. split; [apply static_step_refl | done].
  - unfold mbind, Py_bind.
    destruct (_update_cam_attr self attr st) as [[[] | e] st1] eqn:Hone;
      apply _update_cam_attr_static_step in Hone as [Hstep Hpass]; try done.
    + intros Hrest. apply IH in Hrest as [Hstep' Hpass'].
      split; [by eapply static_step_trans | done].
    + by intros [= <- <-].
Qed.

Lemma unpack2_cases v :
  (∃ a b, unpack2 v = Normal (a, b))
  ∨ unpack2 v = Raised ValueError
  ∨ unpack2 v = Raised TypeError.
Proof.
  unfold unpack2. destruct (py_iter v) as [[| a [| b [| ? ?]]] | e] eqn:Hiter;
    eauto.
  right. right. destruct v; cbn in Hiter; by simplify_eq.
Qed.

Lemma _update_static_attrs_static_step self st r st' :
  _update_static_attrs self st = (r, st') →
  static_step st st' ∧ passes_amcrest_clause r.
Proof.
  unfold _update_static_attrs, mbind at 1, Py_bind at 1.
  destruct (for_each _ _ st) as [[[] | e] st1] eqn:Hloop;
    apply for_each_static_step in Hloop as [Hstep Hpass];
    try (repeat constructor; not_in_list).
  2: by intros [= <- <-].
  unfold try_except_else, mbind, Py_bind, lift_result.
  destruct (_get_cam_attr self "software_information" st1) as [v st2] eqn:Hget.
  apply _get_cam_attr_static_step in Hget as [Hstep2 [v' ->]];
    [| not_in_list].
  pose proof (static_step_trans _ _ _ Hstep Hstep2) as Hstep12.
  destruct (unpack2_cases v') as [(a & b & ->) | [-> | ->]].
  - destruct (_extract_attr a "=") as [x | e] eqn:Hx; cbn.
    2: { intros [= <- <-]. split; [done |].
         apply _extract_attr_raises in Hx as ->; done. }
    destruct (_extract_attr b ":") as [y | e] eqn:Hy; cbn.
    + intros [= <- <-]. split; [| done].
      eapply static_step_trans; [exact Hstep12 |].
      apply static_step_cache_log. each_refresh_field.
    + intros [= <- <-]. split.
      * eapply static_step_trans; [exact Hstep12 |].
        apply static_step_cache_log. each_refresh_field.
      * apply _extract_attr_raises in Hy as ->; done.
  - cbn. intros [= <- <-]. split; [| done].
    eapply static_step_trans; [exact Hstep12 |].
    apply static_step_cache_log. each_refresh_field.
  - cbn. intros [= <- <-]. by split.
Qed.

Lemma refresh_static_static_step self st r st' :
  refresh_static self st = (r, st') →
  static_step st st' ∧ passes_amcrest_clause r.
Proof.
  unfold refresh_static, mbind, Py_bind, get_state.
  destruct (is_None (_model (cache st))).
  - destruct (_get_cam_attr self "device_type" st) as [v st1] eqn:Hget.
    apply _get_cam_attr_static_step in Hget as [Hstep [v' ->]];
      [| not_in_list].
    unfold lift_result.
    destruct (_extract_attr v' "=") as [x | e] eqn:Hx; cbn.
    2: { intros [= <- <-]. split; [done |].
         apply _extract_attr_raises in Hx as ->; done. }
    case_bool_decide.
    + intros Hrun. apply _update_static_attrs_static_step in Hrun as [H1 H2].
      split; [| done].
      eapply static_step_trans; [exact Hstep |].
      eapply static_step_trans; [| exact H1].
      apply static_step_cache_log. each_refresh_field.
    + intros [= <- <-]. split; [| done].
      eapply static_step_trans; [exact Hstep |].
      apply static_step_cache_log. each_refresh_field.
  - cbn. case_bool_decide.
    + apply _update_static_attrs_static_step.
    + intros [= <- <-]. split; [apply static_step_refl | done].
Qed.

(** The fields read at or after a failed read are untouched. *)
Ltac failed_read_fields :=
  let i := fresh "i" in
  let f := fresh "f" in
  let Hi := fresh in
  let Hf := fresh in
  intros i f Hi Hf;
  destruct i as [| [| [| [| [| ?]]]]]; cbn in Hf; simplify_eq; try lia.

(** The five reads: either one of them fails, and the suite ends there
    with the fields from that read on untouched, or all are answered. *)
Lemma refresh_dynamic_spec self st r st' :
  refresh_dynamic self st = (r, st') →
  _static_attrs (cache st') = _static_attrs (cache st)
  ∧ _model (cache st') = _model (cache st)
  ∧ log st' = log st
  ∧ scheduled st' = scheduled st
  ∧ ((∃ k detail,
        (k < 5)%nat
        ∧ r = Raised (AmcrestError detail)
        ∧ calls st' = calls st ++ take (S k) refresh_reads
        ∧ reply_at self st k = Fail detail
        ∧ (∀ i, (i < k)%nat → ∃ v, reply_at self st i = Ok v)
        ∧ (∀ i f, (k ≤ i)%nat → refresh_fields !! i = Some f →
             field_value f (cache st') = field_value f (cache st)))
     ∨ (calls st' = calls st ++ refresh_reads
        ∧ passes_amcrest_clause r
        ∧ (∀ i, (i < 5)%nat → ∃ v, reply_at self st i = Ok v)
        ∧ ∃ v, reply_at self st 4 = Ok v
            ∧ match list_getitem CBW v with
              | Normal c => r = Normal tt ∧ _color_bw (cache st') = c
              | Raised e =>
                  r = Raised e
                  ∧ _color_bw (cache st') = _color_bw (cache st)
              end)).
Proof.
  unfold refresh_dynamic, reply_at, mbind, Py_bind, device_call, lift_result,
    refresh_reads.
  destruct (_camera self (calls st) _) as [v0 | d0] eqn:H0; cbn.
  2: { intros [= <- <-]. repeat split; try done. left. exists 0%nat, d0.
       cbn. rewrite app_nil_r. repeat split; try done; lia. }
  destruct (_camera self (_ ++ [GetAttr "video_enabled"]) _)
    as [v1 | d1] eqn:H1; cbn.
  2: { intros [= <- <-]. repeat split; try done. left. exists 1%nat, d1.
       cbn. rewrite <- !app_assoc. repeat split; try done; try lia.
       - intros [| i] Hi; [| lia]. cbn. rewrite app_nil_r. eauto.
       - by failed_read_fields. }
  destruct (_camera self (_ ++ [GetAttr "record_mode"]) _)
    as [v2 | d2] eqn:H2; cbn.
  2: { intros [= <- <-]. repeat split; try done. left. exists 2%nat, d2.
       cbn. rewrite <- !app_assoc in *. repeat split; try done; try lia.
       - intros [| [| i]] Hi; [| | lia]; cbn; rewrite ?app_nil_r; eauto.
       - by failed_read_fields. }
  destruct (_camera self (_ ++ [CallMethod "is_motion_detector_on" []]) _)
    as [v3 | d3] eqn:H3; cbn.
  2: { intros [= <- <-]. repeat split; try done. left. exists 3%nat, d3.
       cbn. rewrite <- !app_assoc in *. repeat split; try done; try lia.
       - intros [| [| [| i]]] Hi; [| | | lia]; cbn; rewrite ?app_nil_r; eauto.
       - by failed_read_fields. }
  destruct (_camera self (_ ++ [GetAttr "audio_enabled"]) _)
    as [v4 | d4] eqn:H4; cbn.
  2: { intros [= <- <-]. repeat split; try done. left. exists 4%nat, d4.
       cbn. rewrite <- !app_assoc in *. repeat split; try done; try lia.
       - intros [| [| [| [| i]]]] Hi; [| | | | lia]; cbn;
           rewrite ?app_nil_r; eauto.
       - by failed_read_fields. }
  rewrite <- !app_assoc in *. cbn in *.
  assert (∀ i, (i < 5)%nat →
    ∃ v, _camera self (calls st ++ take i refresh_reads)
           (default (GetAttr EmptyString) (refresh_reads !! i)) = Ok v) as Hall.
  { intros [| [| [| [| [| i]]]]] Hi; [| | | | | lia]; cbn;
      rewrite ?app_nil_r; eauto. }
  destruct (list_getitem CBW v4) as [c | e] eqn:Hc; cbn.
  - intros [= <- <-]. repeat split; try done. right.
    repeat split; try done. exists v4. by rewrite Hc.
  - intros [= <- <-]. repeat split; try done. right.
    repeat split; try done.
    + intros d [= ->]. destruct v4 as [| [] | n | | |]; try done;
        unfold list_getitem, list_getitem_int in Hc;
        repeat case_match; done.
    + exists v4. by rewrite Hc.
Qed.

(** *** Locating a call in the trace of a refresh *)

Lemma call_in_suffix {A} (h pre suf tr rest : list A) (x : A) :
  h ++ pre ++ suf = tr ++ x :: rest →
  (length h ≤ length tr)%nat →
  x ∉ pre →
  ∃ s1, suf = s1 ++ x :: rest ∧ tr = h ++ pre ++ s1.
Proof.
  intros Heq Hlen Hx. rewrite app_assoc in Heq.
  apply app_eq_inv in Heq as [(m & Hm & Hsuf) | (m & Hm & Hsuf)].
  - destruct m as [| y m].
    + exists []. rewrite app_nil_r in Hm. cbn in Hsuf.
      split; [done |]. by rewrite app_nil_r.
    + exfalso. injection Hsuf as <- _.
      apply app_eq_inv in Hm as [(m' & Hh & Hpre) | (m' & Htr & Hpre)].
      * destruct m' as [| z m'].
        -- cbn in Hpre. apply Hx. rewrite <- Hpre. left.
        -- rewrite Hh, length_app in Hlen. cbn in Hlen. lia.
      * apply Hx. rewrite Hpre. apply elem_of_app. right. left.
  - exists m. split; [done |]. by rewrite Hm, app_assoc.
Qed.

Lemma position_in_take {A} (l : list A) (n k : nat) (x : A) s1 rest :
  NoDup l →
  l !! k = Some x →
  take n l = s1 ++ x :: rest →
  s1 = take k l ∧ (k < n)%nat ∧ rest = drop (S k) (take n l).
Proof.
  intros Hnd Hk Heq.
  assert (take n l !! length s1 = Some x) as Hat.
  { rewrite Heq. by rewrite list_lookup_middle. }
  apply lookup_take_Some in Hat as [Hat Hlt].
  assert (length s1 = k) as <- by (eapply NoDup_lookup; eauto).
  split; [| split; [done |]].
  - assert (take (length s1) (take n l) = s1) as Ht.
    { rewrite Heq. by rewrite take_app_length. }
    rewrite take_take in Ht. by rewrite Nat.min_l in Ht by lia.
  - rewrite Heq. change (s1 ++ x :: rest) with (s1 ++ [x] ++ rest).
    rewrite app_assoc, drop_app_length'; [done |].
    rewrite length_app. cbn. lia.
Qed.

Lemma refresh_reads_NoDup : NoDup refresh_reads.
Proof. unfold refresh_reads. repeat (constructor; [not_in_list |]). constructor. Qed.

Lemma refresh_field_elem i f : refresh_fields !! i = Some f → f ∈ refresh_fields.
Proof. intros H. by eapply list_elem_of_lookup_2. Qed.

(** [update] is its static half followed, when that half ends normally,
    by the five reads; an [AmcrestError] of a read is logged. *)
Lemma update_cases self st :
  ∃ r1 st1,
    refresh_static self
      (mkState (cache st) (calls st)
         (log st ++ [mkLog DEBUG "Pulling data from %s camera"
                       [PyStr (_name self)]])
         (scheduled st)) = (r1, st1)
    ∧ static_step st st1
    ∧ match r1 with
      | Raised e => update self st = (Raised e, st1)
      | Normal _ =>
          ∃ r st2,
            refresh_dynamic self st1 = (r, st2)
            ∧ update self st
              = match r with
                | Raised (AmcrestError detail) =>
                    (Normal tt,
                     mkState (cache st2) (calls st2)
                       (log st2
                        ++ [mkLog ERROR
                              "Could not get %s camera attributes due to error: %s"
                              [PyStr (_name self); PyStr detail]])
                       (scheduled st2))
                | _ => (r, st2)
                end
      end.
Proof.
  rewrite update_unfold.
  unfold try_except, try_except_else, mbind, Py_bind.
  destruct (refresh_static self _) as [r1 st1] eqn:Hs.
  exists r1, st1. split; [done |].
  apply refresh_static_static_step in Hs as [Hstep Hpass].
  split; [exact Hstep |].
  destruct r1 as [[] | e].
  - destruct (refresh_dynamic self st1) as [r st2] eqn:Hd.
    exists r, st2. split; [done |].
    by destruct r as [[] | []].
  - destruct e; try done. by destruct (Hpass detail).
Qed.

(** C1, as the code has it.  When a read of the refresh fails — the
    refresh made the call [c], one of its five reads, after the calls
    [tr], and the device client answered it with an error — the refresh
    ends there: no further call is made, no exception leaves [update],
    the last record logged is the error with the camera name and the
    error text, nothing is scheduled, and the fields that are read at or
    after [c] hold the values they had before the refresh.  (The fields
    read before [c] were already assigned.) *)
Theorem update_aborts_at_failed_read self st k c detail tr rest :
  refresh_reads !! k = Some c →
  calls (update self st).2 = tr ++ c :: rest →
  (length (calls st) ≤ length tr)%nat →
  _camera self tr c = Fail detail →
  let st' := (update self st).2 in
  (update self st).1 = Normal tt
  ∧ rest = []
  ∧ last (log st')
    = Some (mkLog ERROR "Could not get %s camera attributes due to error: %s"
              [PyStr (_name self); PyStr detail])
  ∧ scheduled st' = scheduled st
  ∧ ∀ i f, (k ≤ i)%nat → refresh_fields !! i = Some f →
      field_value f (cache st') = field_value f (cache st).
Proof.
  intros Hk Htrace Hlen Hfail.
  destruct (update_cases self st)
    as (r1 & st1 & _ & [(pre & Hpre & Hnot) [Hkeep Hsched]] & Hrun).
  assert (c ∉ pre) as Hc.
  { intros Hin. eapply Forall_forall in Hnot; [| exact Hin].
    apply Hnot. by eapply list_elem_of_lookup_2. }
  destruct r1 as [[] | e].
  2: { rewrite Hrun in Htrace. cbn in Htrace. rewrite Hpre in Htrace.
       rewrite <- (app_nil_r pre) in Htrace.
       apply call_in_suffix in Htrace as (s1 & Hnil & _); [| done | done].
       by destruct s1. }
  destruct Hrun as (r & st2 & Hdyn & Hrun).
  apply refresh_dynamic_spec in Hdyn
    as (_ & _ & Hlog & Hsched2 & [(k' & d' & Hk' & -> & Hcalls & Hrep & Hprev & Hfields)
                                  | (Hcalls & Hpass & Hall & _)]).
  - rewrite Hrun in Htrace |- *. cbn in Htrace |- *.
    rewrite Hcalls, Hpre, <- app_assoc in Htrace.
    apply call_in_suffix in Htrace as (s1 & Htake & ->); [| done | done].
    apply (position_in_take _ _ k c) in Htake as (-> & Hlt & ->);
      [| apply refresh_reads_NoDup | exact Hk].
    assert (reply_at self st1 k = Fail detail) as Hrep_k.
    { unfold reply_at. by rewrite Hk, Hpre, <- app_assoc. }
    assert (k = k') as <-.
    { destruct (decide (k = k')) as [| Hne]; [done |].
      destruct (Hprev k) as [v Hv]; [lia |]. congruence. }
    assert (d' = detail) as -> by congruence.
    repeat split; try done.
    + rewrite drop_ge; [done |]. rewrite length_take. lia.
    + by rewrite last_snoc.
    + by rewrite Hsched2.
    + intros i f Hi Hf. rewrite (Hfields i f Hi Hf).
      apply Hkeep. by eapply refresh_field_elem.
  - exfalso.
    assert (calls (update self st).2 = calls st2) as Hsame.
    { rewrite Hrun. by destruct r as [[] | []]. }
    rewrite Hsame, Hcalls, Hpre, <- app_assoc in Htrace.
    apply call_in_suffix in Htrace as (s1 & Htake & ->); [| done | done].
    change refresh_reads with (take 5 refresh_reads) in Htake at 1.
    apply (position_in_take _ _ k c) in Htake as (-> & Hlt & _);
      [| apply refresh_reads_NoDup | exact Hk].
    destruct (Hall k Hlt) as [v Hv].
    unfold reply_at in Hv. rewrite Hk, Hpre, <- app_assoc in Hv. cbn in Hv.
    congruence.
Qed.

Lemma update_partial_counterexample :
  let st1 := (update porch init_state).2 in
  let st2 := (update porch st1).2 in
  (update porch init_state).1 = Normal tt
  ∧ log st1 = [mkLog DEBUG "Pulling data from %s camera" [PyStr "porch"]]
  ∧ _camera porch (calls st1 ++ [GetAttr "video_enabled"])
      (GetAttr "record_mode") = Fail "connection reset"
  ∧ calls st2 = calls st1 ++ [GetAttr "video_enabled"; GetAttr "record_mode"]
  ∧ is_streaming (cache st1) = PyBool true
  ∧ is_streaming (cache st2) = PyBool false
  ∧ cache st2 ≠ cache st1.
Proof.
  repeat split; try (vm_compute; reflexivity).
  intros H. apply (f_equal is_streaming) in H. vm_compute in H. discriminate.
Qed.

Lemma update_aborts_at_failed_read_witness :
  let st1 := (update porch init_state).2 in
  let st2 := (update porch st1).2 in
  (update porch st1).1 = Normal tt
  ∧ last (log st2)
    = Some (mkLog ERROR "Could not get %s camera attributes due to error: %s"
              [PyStr "porch"; PyStr "connection reset"])
  ∧ _is_recording (cache st2) = _is_recording (cache st1)
  ∧ _color_bw (cache st2) = _color_bw (cache st1).
Proof.
  pose proof (update_aborts_at_failed_read porch (update porch init_state).2
                1 (GetAttr "record_mode") "connection reset"
                ((update porch init_state).2.(calls) ++ [GetAttr "video_enabled"])
                [] eq_refl) as H.
  destruct H as (Hr & _ & Hlog & _ & Hfields).
  - vm_compute. reflexivity.
  - vm_compute. lia.
  - vm_compute. reflexivity.
  - intros st1 st2. split; [exact Hr |]. split; [exact Hlog |]. split.
    + exact (Hfields 1%nat F_is_recording (le_n 1) eq_refl).
    + exact (Hfields 4%nat F_color_bw ltac:(lia) eq_refl).
Defined.

(** ** Static attributes *)

(** With a map that is not empty the static half reads at most the
    model and leaves the map alone. *)
Lemma refresh_static_nonempty self st r st1 :
  _static_attrs (cache st) ≠ ∅ →
  refresh_static self st = (r, st1) →
  _static_attrs (cache st1) = _static_attrs (cache st)
  ∧ ∃ pre, calls st1 = calls st ++ pre
      ∧ ∀ c, c ∈ pre → c = GetAttr "device_type".
Proof.
  intros Hne. unfold refresh_static, mbind, Py_bind, get_state.
  destruct (is_None (_model (cache st))).
  - destruct (_get_cam_attr_spec self "device_type" st)
      as (v & lg & -> & _).
    unfold lift_result. destruct (_extract_attr v "=") as [m | e]; cbn.
    + rewrite bool_decide_eq_false_2 by done.
      intros [= <- <-]. split; [done |].
      eexists. split; [done |]. by intros c ->%list_elem_of_singleton.
    + intros [= <- <-]. split; [done |].
      eexists. split; [done |]. by intros c ->%list_elem_of_singleton.
  - cbn. rewrite bool_decide_eq_false_2 by done.
    intros [= <- <-]. split; [done |].
    exists []. split; [by rewrite app_nil_r |]. by intros c ?%elem_of_nil.
Qed.

Lemma static_read_elsewhere c :
  c ∈ static_reads → c ≠ GetAttr "device_type" ∧ c ∉ refresh_reads.
Proof.
  unfold static_reads. intros Hin.
  repeat (apply elem_of_cons in Hin as [-> | Hin];
          [split; [done | not_in_list] |]).
  by apply elem_of_nil in Hin.
Qed.

(** One refresh of a camera whose static map is not empty. *)
Lemma update_static_nonempty self st :
  _static_attrs (cache st) ≠ ∅ →
  _static_attrs (cache (update self st).2) = _static_attrs (cache st)
  ∧ ∃ new, calls (update self st).2 = calls st ++ new
      ∧ ∀ c, c ∈ static_reads → c ∉ new.
Proof.
  intros Hne.
  destruct (update_cases self st) as (r1 & st1 & Hs & _ & Hrun).
  apply refresh_static_nonempty in Hs as (Hmap & pre & Hpre & Honly);
    [| done].
  cbn in Hmap, Hpre.
  destruct r1 as [[] | e].
  - destruct Hrun as (r & st2 & Hdyn & ->).
    apply refresh_dynamic_spec in Hdyn as (Hmap2 & _ & _ & _ & Hcalls).
    assert (∃ j, calls st2 = calls st1 ++ take j refresh_reads) as [j Hj].
    { destruct Hcalls as [(k & d & _ & _ & Hc & _) | (Hc & _)].
      - by exists (S k).
      - exists 5%nat. by rewrite Hc. }
    split.
    + destruct r as [[] | []]; cbn; congruence.
    + exists (pre ++ take j refresh_reads). split.
      * destruct r as [[] | []]; cbn; by rewrite Hj, Hpre, app_assoc.
      * intros c [Hc1 Hc2]%static_read_elsewhere
          [Hin | Hin%subseteq_take]%elem_of_app; [| done].
        by apply Honly in Hin.
  - rewrite Hrun. cbn. split; [done |].
    exists pre. split; [done |].
    intros c [Hc1 _]%static_read_elsewhere Hin. by apply Honly in Hin.
Qed.

(** An operation other than a refresh reads nothing and leaves the
    static map alone. *)
Lemma operation_static_nonempty self op st :
  _static_attrs (cache st) ≠ ∅ →
  _static_attrs (cache (run_operation self op st).2) = _static_attrs (cache st)
  ∧ ∃ new, calls (run_operation self op st).2 = calls st ++ new
      ∧ ∀ c, c ∈ static_reads → c ∉ new.
Proof.
  intros Hne.
  destruct op as [| [e | e | e | e | cbw] | | | preset | |];
    [by apply update_static_nonempty | ..];
    unfold run_operation, run_command, turn_off, turn_on, goto_preset,
      tour_on, tour_off, is_recording_setter,
      motion_detection_enabled_setter, video_enabled_setter,
      audio_enabled_setter, color_bw_setter, try_except, try_except_else,
      mbind, Py_bind, lift_result, device_call;
    try destruct (list_index cbw CBW) as [? | []]; cbn;
    repeat (destruct (_camera self _ _); cbn);
    (split; [done |]);
    first [ exists []; split; [by rewrite app_nil_r |]
          | rewrite <- ?app_assoc; eexists; split; [done |] ];
    intros c Hc; unfold static_reads in Hc;
    repeat (apply elem_of_cons in Hc as [-> | Hc]; [not_in_list |]);
    by apply elem_of_nil in Hc.
Qed.

(** C10.  Once the static map holds an entry, no refresh that follows,
    whatever else is asked of the camera in between, reads a static
    attribute or changes the map: what is missing from it stays
    missing. *)
Theorem static_attrs_fetched_only_while_empty self st ops :
  _static_attrs (cache st) ≠ ∅ →
  _static_attrs (cache (run_operations self ops st)) = _static_attrs (cache st)
  ∧ ∃ new, calls (run_operations self ops st) = calls st ++ new
      ∧ ∀ c, c ∈ static_reads → c ∉ new.
Proof.
  revert st. induction ops as [| op ops IH]; intros st Hne; cbn.
  - split; [done |]. exists []. split; [by rewrite app_nil_r |].
    intros c _. apply not_elem_of_nil.
  - destruct (operation_static_nonempty self op st Hne)
      as (Hmap & new1 & Hcalls1 & Hnone1).
    destruct (IH (run_operation self op st).2)
      as (Hmap' & new2 & Hcalls2 & Hnone2).
    { by rewrite Hmap. }
    split; [by rewrite Hmap', Hmap |].
    exists (new1 ++ new2). split.
    + by rewrite Hcalls2, Hcalls1, app_assoc.
    + intros c Hc [Hin | Hin]%elem_of_app.
      * by apply (Hnone1 c).
      * by apply (Hnone2 c).
Qed.

Lemma static_attrs_fetched_only_while_empty_witness :
  let st1 := (update garage init_state).2 in
  let later := [Refresh; Mutate (Audio false); Refresh; TurnOff; Refresh] in
  _static_attrs (cache st1) !! "serial_number" = None
  ∧ _static_attrs (cache st1) !! "machine_name" = Some (PyStr "AMC0001")
  ∧ _camera garage (calls st1) (GetAttr "serial_number")
    = Ok (PyStr "sn=AMC0001234")
  ∧ _static_attrs (cache (run_operations garage later st1))
    = _static_attrs (cache st1)
  ∧ ∃ new, calls (run_operations garage later st1) = calls st1 ++ new
      ∧ ∀ c, c ∈ static_reads → c ∉ new.
Proof.
  intros st1 later.
  split; [vm_compute; reflexivity |].
  split; [vm_compute; reflexivity |].
  split; [vm_compute; reflexivity |].
  apply (static_attrs_fetched_only_while_empty garage st1 later).
  intros Hempty.
  apply (f_equal (λ m : gmap string PyVal, m !! "machine_name")) in Hempty.
  vm_compute in Hempty. discriminate.
Defined.

(** What [_update_static_attrs] does once its loop has run and the
    software information does not unpack. *)
Lemma _update_static_attrs_unpack_error self st st3 st4 v e :
  for_each ["hardware_version"; "machine_name"; "serial_number"]
    (_update_cam_attr self) st = (Normal tt, st3) →
  _get_cam_attr self "software_information" st3 = (Normal v, st4) →
  unpack2 v = Raised e →
  _update_static_attrs self st
  = match e with
    | TypeError => (Normal tt, st4)
    | ValueError =>
        _LOGGER_error "Unexpected %s camera software_information"
          [PyStr (_name self)] st4
    | _ => (Raised e, st4)
    end.
Proof.
  intros Hloop Hget Hunpack.
  unfold _update_static_attrs, try_except_else, mbind, Py_bind, lift_result.
  rewrite Hloop, Hget, Hunpack. by destruct e.
Qed.

(** C7, as the code has it.  After the loop over the three plain
    attributes has run, a software-information answer that does not
    unpack into two parts leaves the cache as the loop left it and raises
    nothing.  An answer with the wrong number of parts is logged as
    unexpected; an answer that cannot be iterated at all is passed over
    without a record; and when the read itself fails the only record is
    the one [_get_cam_attr] writes. *)
Theorem software_information_malformed self st st3 :
  for_each ["hardware_version"; "machine_name"; "serial_number"]
    (_update_cam_attr self) st = (Normal tt, st3) →
  let ask := GetAttr "software_information" in
  let skipped (records : list LogRecord) :=
    (Normal tt,
     mkState (cache st3) (calls st3 ++ [ask]) (log st3 ++ records)
       (scheduled st3)) in
  (∀ v, _camera self (calls st3) ask = Ok v →
        unpack2 v = Raised ValueError →
        _update_static_attrs self st
        = skipped [mkLog ERROR "Unexpected %s camera software_information"
                     [PyStr (_name self)]])
  ∧ (∀ v, _camera self (calls st3) ask = Ok v →
          unpack2 v = Raised TypeError →
          _update_static_attrs self st = skipped [])
  ∧ (∀ detail, _camera self (calls st3) ask = Fail detail →
          _update_static_attrs self st
          = skipped [mkLog ERROR "Could not get %s camera %s due to error: %s"
                       [PyStr (_name self); PyStr "software_information";
                        PyStr detail]]).
Proof.
  intros Hloop ask skipped. subst ask skipped.
  destruct (_get_cam_attr_spec self "software_information" st3)
    as (v' & records & Hget & Hreply).
  split; [| split].
  - intros v Hv Hunpack. rewrite Hv in Hreply. destruct Hreply as [-> ->].
    rewrite (_update_static_attrs_unpack_error _ _ _ _ _ _ Hloop Hget Hunpack).
    unfold _LOGGER_error, emit, modify. cbn. by rewrite app_nil_r.
  - intros v Hv Hunpack. rewrite Hv in Hreply. destruct Hreply as [-> ->].
    by rewrite (_update_static_attrs_unpack_error _ _ _ _ _ _ Hloop Hget Hunpack).
  - intros detail Hd. rewrite Hd in Hreply. destruct Hreply as [-> ->].
    by rewrite (_update_static_attrs_unpack_error _ _ _ _ _ TypeError
                  Hloop Hget eq_refl).
Qed.

Lemma software_information_malformed_witness :
  _update_static_attrs attic init_state
  = (Normal tt,
     mkState
       (mkCache (PyBool false) (PyBool false) PyNone PyNone PyNone PyNone
          (<["serial_number" := PyStr "AMC0001234"]>
             (<["machine_name" := PyStr "AMC0001"]>
                (<["hardware_version" := PyStr "1.00"]> ∅))))
       [GetAttr "hardware_version"; GetAttr "machine_name";
        GetAttr "serial_number"; GetAttr "software_information"]
       [] 0).
Proof.
  pose proof (software_information_malformed attic init_state
                (for_each ["hardware_version"; "machine_name"; "serial_number"]
                   (_update_cam_attr attic) init_state).2
                eq_refl) as (_ & Hsilent & _).
  exact (Hsilent (PyInt 7) eq_refl eq_refl).
Defined.

Lemma software_information_silent_counterexample :
  let st3 :=
    (for_each ["hardware_version"; "machine_name"; "serial_number"]
       (_update_cam_attr attic) init_state).2 in
  let st' := (_update_static_attrs attic init_state).2 in
  _camera attic (calls st3) (GetAttr "software_information") = Ok (PyInt 7)
  ∧ unpack2 (PyInt 7) = Raised TypeError
  ∧ (_update_static_attrs attic init_state).1 = Normal tt
  ∧ _static_attrs (cache st') !! "software_version" = None
  ∧ log st' = []
  ∧ ¬ ∃ record, record ∈ log st' ∧ level record = ERROR.
Proof.
  repeat split; try (vm_compute; reflexivity).
  intros (record & Hin & _). vm_compute in Hin. by apply elem_of_nil in Hin.
Qed.

(** ** Color mode *)

(** *** A refresh that is answered *)

Lemma _extract_attr_no_bytes v sep :
  sep ≠ EmptyString → is_bytes v = false → ∃ x, _extract_attr v sep = Normal x.
Proof.
  intros Hsep Hv. unfold _extract_attr, split_last_strip, str_split, last_item.
  destruct v as [| | | s | |]; try done; eauto.
  destruct sep; [done |].
  destruct (last _) eqn:Hlast; [eauto |].
  apply last_None in Hlast. by apply split_from_nonempty in Hlast.
Qed.

Lemma bytes_free_is_bytes v : bytes_free v = true → is_bytes v = false.
Proof. by destruct v. Qed.

Lemma unpack2_no_bytes v a b :
  bytes_free v = true → unpack2 v = Normal (a, b) →
  is_bytes a = false ∧ is_bytes b = false.
Proof.
  unfold unpack2. destruct v as [| | | s | | items]; cbn; try done.
  - destruct (list_ascii_of_string s) as [| c1 [| c2 [| ? ?]]]; cbn; try done.
    by intros _ [= <- <-].
  - destruct items as [| a' [| b' [| ? ?]]]; try done.
    cbn. intros Hfree [= <- <-].
    by destruct (is_bytes a'), (is_bytes b').
Qed.

Lemma answered_update_cam_attr self attr st :
  (∀ reply, _camera self (calls st) (GetAttr attr) = Ok reply →
     bytes_free reply = true) →
  ∃ st', _update_cam_attr self attr st = (Normal tt, st')
    ∧ calls st' = calls st ++ [GetAttr attr].
Proof.
  intros Hfree. unfold _update_cam_attr, mbind, Py_bind.
  destruct (_get_cam_attr_spec self attr st) as (v & lg & -> & Hv).
  destruct (is_None v) eqn:Hnone; [by eexists |].
  destruct (_camera self (calls st) (GetAttr attr)) as [v' | d];
    [| by destruct Hv as [-> _]].
  destruct Hv as [-> _].
  destruct (_extract_attr_no_bytes v' "=") as [x Hx];
    [done | by apply bytes_free_is_bytes, Hfree |].
  unfold lift_result. rewrite Hx. by eexists.
Qed.

Lemma answered_update_static_attrs self st :
  (∀ k call reply, static_reads !! k = Some call →
     _camera self (calls st ++ take k static_reads) call = Ok reply →
     bytes_free reply = true) →
  ∃ st', _update_static_attrs self st = (Normal tt, st')
    ∧ calls st' = calls st ++ static_reads.
Proof.
  intros Hfree. unfold _update_static_attrs. cbn [for_each].
  unfold try_except_else, mbind, Py_bind, lift_result.
  destruct (answered_update_cam_attr self "hardware_version" st)
    as (st1 & -> & Hc1).
  { intros reply. rewrite <- (app_nil_r (calls st)). by apply (Hfree 0%nat). }
  destruct (answered_update_cam_attr self "machine_name" st1)
    as (st2 & -> & Hc2).
  { intros reply. rewrite Hc1. by apply (Hfree 1%nat). }
  destruct (answered_update_cam_attr self "serial_number" st2)
    as (st3 & -> & Hc3).
  { intros reply. rewrite Hc2, Hc1, <- app_assoc. by apply (Hfree 2%nat). }
  cbn.
  destruct (_get_cam_attr_spec self "software_information" st3)
    as (v & lg & -> & Hv).
  assert (calls st3 ++ [GetAttr "software_information"]
          = calls st ++ static_reads) as Hcalls.
  { rewrite Hc3, Hc2, Hc1, <- !app_assoc. done. }
  assert (bytes_free v = true) as Hbf.
  { destruct (_camera self (calls st3) (GetAttr "software_information"))
      as [v' | d] eqn:Hreply; destruct Hv as [-> _]; [| done].
    rewrite Hc3, Hc2, Hc1, <- !app_assoc in Hreply.
    by apply (Hfree 3%nat _ _ eq_refl Hreply). }
  destruct (unpack2_cases v) as [(a & b & Hab) | [-> | ->]].
  - rewrite Hab. apply unpack2_no_bytes in Hab as [Ha Hb]; [| done].
    destruct (_extract_attr_no_bytes a "=") as [x ->]; [done | done |].
    destruct (_extract_attr_no_bytes b ":") as [y ->]; [done | done |].
    cbn. by eexists.
  - cbn. by eexists.
  - cbn. by eexists.
Qed.

Lemma answered_refresh_static self st :
  (∀ k call reply, first_reads st !! k = Some call →
     _camera self (calls st ++ take k (first_reads st)) call = Ok reply →
     bytes_free reply = true) →
  ∃ st', refresh_static self st = (Normal tt, st')
    ∧ calls st' = calls st ++ first_reads st.
Proof.
  unfold first_reads, refresh_static, mbind, Py_bind, get_state.
  destruct (is_None (_model (cache st))) eqn:Hmodel.
  - intros Hfree.
    destruct (_get_cam_attr_spec self "device_type" st) as (v & lg & -> & Hv).
    assert (is_bytes v = false) as Hbf.
    { destruct (_camera self (calls st) (GetAttr "device_type"))
        as [v' | d] eqn:Hreply; destruct Hv as [-> _]; [| done].
      apply bytes_free_is_bytes. apply (Hfree 0%nat _ _ eq_refl).
      cbn. by rewrite app_nil_r. }
    destruct (_extract_attr_no_bytes v "=") as [x Hx]; [done | done |].
    unfold lift_result. rewrite Hx. cbn -[_update_static_attrs static_reads].
    case_bool_decide as Hempty.
    + destruct (answered_update_static_attrs self
                  (mkState (set__model x (cache st))
                     (calls st ++ [GetAttr "device_type"]) (log st ++ lg)
                     (scheduled st))) as (st' & -> & Hcalls).
      { intros k call reply Hk. cbn. rewrite <- app_assoc.
        by apply (Hfree (S k)). }
      exists st'. split; [done |]. rewrite Hcalls. cbn.
      by rewrite <- app_assoc.
    + eexists. split; [done |]. cbn. done.
  - intros Hfree. cbn. case_bool_decide as Hempty.
    + by apply answered_update_static_attrs.
    + eexists. split; [done |]. by rewrite app_nil_r.
Qed.

(** What a refresh stores as the color mode when the device answers: the
    reads it begins with are answered without [bytes] (or fail), the four
    reads before the color read are answered, and the color read is
    answered with [v]. *)
Lemma update_reads_color self st v c :
  (∀ k call reply, first_reads st !! k = Some call →
     _camera self (calls st ++ take k (first_reads st)) call = Ok reply →
     bytes_free reply = true) →
  (∀ k call, (k < 4)%nat → refresh_reads !! k = Some call →
     ∃ reply,
       _camera self (calls st ++ first_reads st ++ take k refresh_reads) call
       = Ok reply) →
  _camera self (calls st ++ first_reads st ++ take 4 refresh_reads)
    (GetAttr "day_night_color") = Ok v →
  list_getitem CBW v = Normal c →
  (update self st).1 = Normal tt
  ∧ _color_bw (cache (update self st).2) = c
  ∧ calls (update self st).2 = calls st ++ first_reads st ++ refresh_reads.
Proof.
  intros Hfree Hreads Hcolor Hitem.
  destruct (update_cases self st) as (r1 & st1 & Hs & _ & Hrun).
  destruct (answered_refresh_static self
              (mkState (cache st) (calls st)
                 (log st ++ [mkLog DEBUG "Pulling data from %s camera"
                               [PyStr (_name self)]])
                 (scheduled st))) as (st1' & Hs' & Hcalls); [exact Hfree |].
  rewrite Hs' in Hs. injection Hs as <- <-.
  change (calls st1' = calls st ++ first_reads st) in Hcalls.
  destruct Hrun as (r & st2 & Hdyn & Hrun).
  apply refresh_dynamic_spec in Hdyn
    as (_ & _ & _ & _ & [(k & d & Hk & _ & _ & Hrep & _)
                         | (Hcalls2 & _ & _ & v' & Hv' & Hstored)]).
  - exfalso. unfold reply_at in Hrep. rewrite Hcalls, <- app_assoc in Hrep.
    destruct (decide (k = 4%nat)) as [-> | Hne].
    + cbn in Hrep, Hcolor. congruence.
    + destruct (refresh_reads !! k) as [call |] eqn:Hcall.
      * destruct (Hreads k call) as [reply Hreply]; [lia | done |].
        cbn in Hrep. congruence.
      * apply lookup_ge_None in Hcall. cbn in Hcall. lia.
  - unfold reply_at in Hv'. rewrite Hcalls, <- app_assoc in Hv'.
    cbn in Hv', Hcolor. assert (v' = v) as -> by congruence.
    rewrite Hitem in Hstored. destruct Hstored as [-> Hstored].
    rewrite Hrun. cbn. split; [done |]. split; [done |].
    by rewrite Hcalls2, Hcalls, <- app_assoc.
Qed.

(** C5.  Each of the three tokens has a position 0, 1 or 2 in [CBW];
    setting the color mode to the token writes that position to the
    device; and a refresh to which the device reports that position as its
    color mode returns normally and stores the token, whatever the cache
    held before.  The refresh is one the device answers: the reads it
    begins with fail or are answered without [bytes], the four reads
    before the color read are answered, each at the history of calls the
    refresh has made by then. *)
Theorem color_mode_round_trip cbw :
  cbw ∈ CBW →
  ∃ i : nat,
    (i < 3)%nat
    ∧ CBW !! i = Some cbw
    ∧ (∀ self st,
         calls (color_bw_setter self (PyStr cbw) st).2
         = calls st ++ [SetAttr "day_night_color" (PyInt (Z.of_nat i))])
    ∧ (∀ self st,
         (∀ k call reply, first_reads st !! k = Some call →
            _camera self (calls st ++ take k (first_reads st)) call
            = Ok reply →
            bytes_free reply = true) →
         (∀ k call, (k < 4)%nat → refresh_reads !! k = Some call →
            ∃ reply,
              _camera self (calls st ++ first_reads st ++ take k refresh_reads)
                call = Ok reply) →
         _camera self (calls st ++ first_reads st ++ take 4 refresh_reads)
           (GetAttr "day_night_color") = Ok (PyInt (Z.of_nat i)) →
         (update self st).1 = Normal tt
         ∧ _color_bw (cache (update self st).2) = PyStr cbw
         ∧ calls (update self st).2
           = calls st ++ first_reads st ++ refresh_reads).
Proof.
  intros Hin. destruct (CBW_index_getitem cbw Hin) as (i & Hi & Hindex & Hitem).
  exists i. split; [| split; [done | split]].
  - apply lookup_lt_Some in Hi. exact Hi.
  - intros self st.
    unfold color_bw_setter, try_except_else, mbind, Py_bind, lift_result,
      device_call.
    rewrite Hindex. by destruct (_camera self (calls st) _).
  - intros self st Hfree Hreads Hcolor.
    by apply (update_reads_color self st (PyInt (Z.of_nat i))).
Qed.

Lemma color_mode_round_trip_witness :
  let written := (color_bw_setter hall (PyStr "bw") init_state).2 in
  let restarted := mkState init_cache (calls written) [] 0 in
  ∃ i : nat,
    CBW !! i = Some "bw"
    ∧ calls written = [SetAttr "day_night_color" (PyInt (Z.of_nat i))]
    ∧ _color_bw (cache written) = PyStr "bw"
    ∧ _color_bw (cache restarted) = PyNone
    ∧ (update hall restarted).1 = Normal tt
    ∧ _color_bw (cache (update hall restarted).2) = PyStr "bw".
Proof.
  intros written restarted.
  destruct (color_mode_round_trip "bw") as (i & Hlt & Hi & Hset & Hread).
  - unfold CBW, CBW_BW. do 2 apply list_elem_of_further. apply list_elem_of_here.
  - assert (i = 2%nat) as ->.
    { destruct i as [| [| [| i]]]; [discriminate | discriminate | done | lia]. }
    destruct (Hread hall restarted) as (Hnormal & Hcolor & _).
    + intros k call reply Hk.
      destruct k as [| [| [| [| [| k]]]]]; cbn in Hk; try discriminate;
        injection Hk as <-; vm_compute; by intros [= <-].
    + intros k call Hlt4 Hk.
      destruct k as [| [| [| [| k]]]]; [| | | | lia];
        injection Hk as <-; eexists; vm_compute; reflexivity.
    + reflexivity.
    + exists 2%nat. split; [exact Hi |]. split; [exact (Hset hall init_state) |].
      split; [reflexivity |]. split; [reflexivity |].
      split; [exact Hnormal | exact Hcolor].
Defined.

(** ** The attribute parser *)

Lemma append_empty_r s : s +:+ EmptyString = s.
Proof.
  induction s as [| a s IH]; [done |].
  change (String a s +:+ EmptyString) with (String a (s +:+ EmptyString)).
  by rewrite IH.
Qed.

Lemma append_snoc s c t : (s +:+ String c EmptyString) +:+ t = s +:+ String c t.
Proof.
  induction s as [| a s IH]; [done |].
  change ((String a s +:+ String c EmptyString) +:+ t)
    with (String a ((s +:+ String c EmptyString) +:+ t)).
  by rewrite IH.
Qed.

Lemma split_from_absent sep s cur :
  occurs sep s = false → split_from sep s 0 cur = [cur +:+ s].
Proof.
  revert cur. induction s as [| c s IH]; intros cur; cbn [occurs split_from].
  - intros _. by rewrite append_empty_r.
  - intros [Hhere Hlater]%orb_false_iff. rewrite Hhere, IH by done.
    by rewrite append_snoc.
Qed.

(** C6, as the code has it.  The two examples of the specification
    hold; a value without a [split] attribute ([None], a boolean, an
    integer, a tuple) gives [None]; a string never gives [None] nor an
    exception but a string, and when the separator does not occur in it
    that string is the whole input, trimmed. *)
Theorem extract_attr_behaviour :
  _extract_attr (PyStr "software version=1.2.3") "=" = Normal (PyStr "1.2.3")
  ∧ _extract_attr (PyStr "build:2021-01-01") ":" = Normal (PyStr "2021-01-01")
  ∧ (∀ v sep, lacks_split v = true → _extract_attr v sep = Normal PyNone)
  ∧ (∀ s sep, sep ≠ EmptyString →
       ∃ t, _extract_attr (PyStr s) sep = Normal (PyStr t))
  ∧ (∀ s sep, sep ≠ EmptyString → occurs sep s = false →
       _extract_attr (PyStr s) sep = Normal (PyStr (strip s))).
Proof.
  split; [done |]. split; [done |]. split; [| split].
  - intros v sep Hv. by destruct v.
  - intros s sep Hsep.
    unfold _extract_attr, split_last_strip, str_split, last_item.
    destruct sep as [| a sep]; [done |].
    destruct (last _) as [p |] eqn:Hlast; [by eexists |].
    apply last_None in Hlast. by apply split_from_nonempty in Hlast.
  - intros s sep Hsep Habsent.
    unfold _extract_attr, split_last_strip, str_split, last_item.
    destruct sep as [| a sep]; [done |].
    by rewrite (split_from_absent _ _ _ Habsent).
Qed.

Lemma extract_attr_behaviour_witness :
  _extract_attr (PyTuple [PyStr "a=b"]) "=" = Normal PyNone
  ∧ _extract_attr (PyStr "  AMC0001 ") "=" = Normal (PyStr "AMC0001").
Proof.
  destruct extract_attr_behaviour as (_ & _ & Hnone & _ & Hwhole).
  split.
  - exact (Hnone (PyTuple [PyStr "a=b"]) "=" eq_refl).
  - exact (Hwhole "  AMC0001 " "=" ltac:(discriminate) eq_refl).
Defined.

Lemma extract_attr_malformed_counterexample :
  occurs "=" "firmware unknown" = false
  ∧ _extract_attr (PyStr "firmware unknown") "="
    = Normal (PyStr "firmware unknown")
  ∧ _extract_attr (PyStr "firmware unknown") "=" ≠ Normal PyNone.
Proof. repeat split; done. Qed.

(** ** Live stream hand-off *)

(** C9.  In rtsp mode, once the stream address is known and the
    transcoding process has been started, the hand-off relays the stream
    and then closes the process exactly once, whatever the relay does:
    return, raise an error, or be cancelled.  Its outcome is the relay's,
    unless closing itself raises. *)
Theorem rtsp_stream_closed_once self env url tr :
  _stream_source self = rtsp →
  rtsp_url env = Normal url →
  open_camera env = Normal tt →
  let out := handle_async_mjpeg_stream self env tr in
  out.2 = tr ++ [EvRtspUrl; EvOpenCamera url; EvProxyStream; EvClose]
  ∧ length (filter is_close out.2) = S (length (filter is_close tr))
  ∧ out.1 = match close env with
            | Normal _ => async_aiohttp_proxy_stream env
            | Raised e => Raised e
            end.
Proof.
  intros Hmode Hurl Hopen.
  unfold handle_async_mjpeg_stream, try_finally, perform, mbind, Py_bind.
  rewrite Hmode, Hurl, Hopen. cbn.
  destruct (close env) as [[] | e]; cbn [fst snd];
    rewrite <- !app_assoc; (split; [done |]); (split; [| done]);
    by rewrite filter_app, length_app, Nat.add_comm.
Qed.

Lemma rtsp_stream_closed_once_witness :
  handle_async_mjpeg_stream porch cancelled_relay []
  = (Raised CancelledError,
     [EvRtspUrl; EvOpenCamera (PyStr "rtsp://porch/live"); EvProxyStream;
      EvClose]).
Proof.
  pose proof (rtsp_stream_closed_once porch cancelled_relay
                (PyStr "rtsp://porch/live") [] eq_refl eq_refl eq_refl)
    as (Htrace & _ & Hout).
  rewrite (surjective_pairing (handle_async_mjpeg_stream _ _ _)).
  by rewrite Htrace, Hout.
Defined.

(** ** Service router *)

Lemma elem_of_positions_from k p cams i :
  i ∈ positions_from k p cams
  ↔ ∃ cam, (k ≤ i)%nat ∧ cams !! (i - k)%nat = Some cam ∧ p cam = true.
Proof.
  revert k. induction cams as [| cam cams IH]; intros k; cbn.
  - split; [by intros ?%elem_of_nil | by intros (? & _ & ? & _)].
  - assert (i ∈ positions_from (S k) p cams
            ↔ ∃ cam', (k ≤ i)%nat
                ∧ (cam :: cams) !! (i - k)%nat = Some cam' ∧ p cam' = true
                ∧ i ≠ k) as Hrest.
    { rewrite IH. split.
      - intros (cam' & Hle & Hat & Hp). exists cam'.
        replace (i - k)%nat with (S (i - S k)) by lia.
        repeat split; [lia | done | done | lia].
      - intros (cam' & Hle & Hat & Hp & Hne). exists cam'.
        replace (i - k)%nat with (S (i - S k)) in Hat by lia.
        repeat split; [lia | done | done]. }
    destruct (p cam) eqn:Hcam.
    + rewrite elem_of_cons, Hrest. split.
      * intros [-> | (cam' & ? & ? & ? & _)]; [| by exists cam'].
        exists cam. rewrite Nat.sub_diag. by repeat split.
      * intros (cam' & Hle & Hat & Hp).
        destruct (decide (i = k)) as [-> | Hne]; [by left |].
        right. by exists cam'.
    + rewrite Hrest. split.
      * intros (cam' & ? & ? & ? & _). by exists cam'.
      * intros (cam' & Hle & Hat & Hp). exists cam'.
        repeat split; try done. intros ->.
        rewrite Nat.sub_diag in Hat. cbn in Hat. congruence.
Qed.

Lemma positions_from_all k cams :
  positions_from k (λ _, true) cams = seq k (length cams).
Proof.
  revert k. induction cams as [| cam cams IH]; intros k; cbn; [done |].
  by rewrite IH.
Qed.

Lemma positions_from_sublist k p cams :
  positions_from k p cams `sublist_of` seq k (length cams).
Proof.
  revert k. induction cams as [| cam cams IH]; intros k; cbn; [done |].
  destruct (p cam); [by apply sublist_skip | by apply sublist_cons].
Qed.

Lemma positions_from_none k p cams :
  (∀ cam, cam ∈ cams → p cam = false) → positions_from k p cams = [].
Proof.
  revert k. induction cams as [| cam cams IH]; intros k Hnone; cbn; [done |].
  rewrite (Hnone cam) by left. apply IH. intros cam' Hin.
  apply Hnone. by right.
Qed.

(** C8.  With the registry read as the list under [DATA_AMCREST_CAMS]
    (empty while the key is absent) and the identifiers as the host's
    helper resolves them: the targets are cameras of the registry, each
    at most once and in registry order; with an [entity_id] entry they are
    exactly the registered cameras whose entity id is among the
    identifiers; without one they are all registered cameras; and when no
    registered camera is among the identifiers, each of the three
    handlers ends normally with nothing dispatched, nothing to refresh
    and every camera as it was. *)
Theorem target_cameras_resolution extract_entity_ids hass call :
  let registry := default [] (data_amcrest_cams hass) in
  let ids := extract_entity_ids hass call in
  let targets := target_cameras extract_entity_ids hass call in
  targets `sublist_of` seq 0 (length registry)
  ∧ (ATTR_ENTITY_ID ∈ dom (data call) →
       ∀ i, i ∈ targets
            ↔ ∃ cam, registry !! i = Some cam ∧ entity_id (adapter cam) ∈ ids)
  ∧ (ATTR_ENTITY_ID ∉ dom (data call) → targets = seq 0 (length registry))
  ∧ (ATTR_ENTITY_ID ∈ dom (data call) →
       (∀ cam, cam ∈ registry → entity_id (adapter cam) ∉ ids) →
       async_service_handler extract_entity_ids call hass = (Normal [], hass)
       ∧ async_goto_preset extract_entity_ids call hass = (Normal [], hass)
       ∧ async_set_color_bw extract_entity_ids call hass = (Normal [], hass)).
Proof.
  intros registry ids targets. subst registry ids targets.
  unfold async_service_handler, async_goto_preset, async_set_color_bw,
    target_cameras, mbind, Py_bind, get_state.
  destruct (data_amcrest_cams hass) as [cams |]; cbn [default].
  2: { split; [done |]. split; [| split; [| done]].
       - intros _ i. split; [by intros ?%elem_of_nil | by intros (? & ? & _)].
       - done. }
  split; [apply positions_from_sublist |]. split; [| split].
  - intros Hdom i. rewrite bool_decide_eq_true_2 by done.
    rewrite elem_of_positions_from, Nat.sub_0_r. split.
    + intros (cam & _ & Hat & Hp%bool_decide_eq_true). by exists cam.
    + intros (cam & Hat & Hid). exists cam.
      repeat split; [lia | done | by apply bool_decide_eq_true].
  - intros Hdom. rewrite bool_decide_eq_false_2 by done.
    apply positions_from_all.
  - intros Hdom Hnone. rewrite bool_decide_eq_true_2 by done.
    rewrite positions_from_none; [done |].
    intros cam Hin. apply bool_decide_eq_false. by apply Hnone.
Qed.

Lemma target_cameras_resolution_witness :
  target_cameras listed_entity_ids two_cameras (record_on "camera.garage")
  `sublist_of` [0; 1]%nat
  ∧ 1%nat ∈ target_cameras listed_entity_ids two_cameras
              (record_on "camera.garage")
  ∧ async_service_handler listed_entity_ids (record_on "camera.cellar")
      two_cameras = (Normal [], two_cameras).
Proof.
  split; [| split].
  - exact (proj1 (target_cameras_resolution listed_entity_ids two_cameras
                    (record_on "camera.garage"))).
  - destruct (target_cameras_resolution listed_entity_ids two_cameras
                (record_on "camera.garage")) as (_ & Hin & _).
    apply Hin.
    + apply elem_of_dom. by eexists.
    + exists (mkCamera garage init_state). split; [done |].
      vm_compute. left.
  - destruct (target_cameras_resolution listed_entity_ids two_cameras
                (record_on "camera.cellar")) as (_ & _ & _ & Hnone).
    apply Hnone.
    + apply elem_of_dom. by eexists.
    + intros cam Hin Hid. vm_compute in Hid.
      apply list_elem_of_singleton in Hid.
      unfold two_cameras, async_added_to_hass in Hin. cbn in Hin.
      apply elem_of_cons in Hin as [-> | Hin]; [discriminate |].
      apply list_elem_of_singleton in Hin as ->. discriminate.
Defined.

(** * Further properties *)

(** ** Still images *)


(** A client whose [snapshot] hands back [None] instead of a response:
    the read of [data] raises, and the [AttributeError] leaves the
    request, nothing being logged. *)
Example async_camera_image_attribute_error :
  let self := mkAdapter "shed" (λ _ _, Ok PyNone) "camera.shed" mjpeg in
  let data response :=
    match response with
    | PyNone => Raised AttributeError
    | image => Normal image
    end in
  let on := (turn_on self init_state).2 in
  async_camera_image self (PyInt 0) data on
  = (Raised AttributeError,
     mkState (cache on)
       (calls on ++ [CallMethod "snapshot" [(EmptyString, PyInt 0)]])
       [] (scheduled on)).
Proof. reflexivity. Qed.

(** X2.  Once the device has accepted the video write of [turn_off], a
    request for a still image is refused without a word to the device:
    it returns [None] and logs that the camera is off. *)
Theorem turn_off_then_no_snapshot self resolution data st accepted :
  _camera self (calls st ++ [SetAttr "record_mode" (PyInt 0)])
    (SetAttr "video_enabled" (PyBool false)) = Ok accepted →
  let off := (turn_off self st).2 in
  async_camera_image self resolution data off
  = (Normal PyNone,
     mkState (cache off) (calls off)
       (log off ++ [mkLog ERROR "Attempt to take snaphot when %s camera is off"
                      [PyStr (_name self)]])
       (scheduled off)).
Proof.
  intros Hok off. subst off.
  unfold turn_off, is_recording_setter, video_enabled_setter, try_except_else,
    mbind, Py_bind, device_call. cbn.
  destruct (_camera self (calls st) _); cbn; by rewrite Hok.
Qed.

Lemma turn_off_then_no_snapshot_witness :
  let self := mkAdapter "shed" (λ _ _, Ok PyNone) "camera.shed" mjpeg in
  let on := (turn_on self init_state).2 in
  calls (async_camera_image self (PyInt 0) Normal on).2
  = [SetAttr "video_enabled" (PyBool true);
     CallMethod "snapshot" [(EmptyString, PyInt 0)]]
  ∧ calls (async_camera_image self (PyInt 0) Normal (turn_off self on).2).2
    = [SetAttr "video_enabled" (PyBool true);
       SetAttr "record_mode" (PyInt 0);
       SetAttr "video_enabled" (PyBool false)].
Proof.
  intros self on. split; [reflexivity |].
  by rewrite (turn_off_then_no_snapshot self (PyInt 0) Normal on PyNone
                eq_refl).
Defined.

(** ** Preset and tour commands *)

(** X3.  Moving to a preset and starting or stopping the tour are
    fire-and-forget: whatever the device does they end normally, make the
    one call, leave the cache alone and schedule nothing; a record is
    logged only when the device fails. *)
Theorem preset_and_tour_fire_and_forget self st preset :
  let outcome (run : Py State unit) (ask : Call) :=
    ∃ records,
      run st
      = (Normal tt,
         mkState (cache st) (calls st ++ [ask]) (log st ++ records)
           (scheduled st))
      ∧ match _camera self (calls st) ask with
        | Ok _ => records = []
        | Fail detail =>
            ∃ fmt a, records = [mkLog ERROR fmt a]
              ∧ PyStr (_name self) ∈ a ∧ PyStr detail ∈ a
        end in
  outcome (goto_preset self preset)
    (CallMethod "go_to_preset"
       [("action", PyStr "start"); ("preset_point_number", preset)])
  ∧ outcome (tour_on self) (CallMethod "tour" [("start", PyBool true)])
  ∧ outcome (tour_off self) (CallMethod "tour" [("start", PyBool false)]).
Proof.
  cbn zeta.
  unfold goto_preset, tour_on, tour_off, try_except, try_except_else, mbind,
    Py_bind, device_call.
  repeat split;
    destruct (_camera self (calls st) _) as [v | detail]; cbn;
    try (exists []; by rewrite app_nil_r);
    (eexists; split; [done |]); eexists _, _; (split; [done |]);
    split; set_solver.
Qed.

(** ** Filling the static map *)

Lemma static_fill_refl st : static_fill st st.
Proof.
  split; [| by repeat split; auto].
  exists []. split; [by rewrite app_nil_r | constructor].
Qed.

Lemma static_fill_trans st1 st2 st3 :
  static_fill st1 st2 → static_fill st2 st3 → static_fill st1 st3.
Proof.
  intros [(p1 & Hc1 & Hp1) (Hf1 & Hk1 & Hs1)] [(p2 & Hc2 & Hp2) (Hf2 & Hk2 & Hs2)].
  split; [| split; [| split]].
  - exists (p1 ++ p2). split; [by rewrite Hc2, Hc1, app_assoc |].
    by apply Forall_app.
  - intros f. by rewrite Hf2, Hf1.
  - intros k Hk. apply Hk2 in Hk as [Hk | Hk]; [by apply Hk1 | by right].
  - by rewrite Hs2.
Qed.

(** Storing a value under a static name is a filling step. *)
Lemma static_fill_item st key v lg :
  key ∈ static_names →
  static_fill st
    (mkState (set__static_attrs_item key v (cache st)) (calls st) lg
       (scheduled st)).
Proof.
  intros Hkey. split; [| split; [| split]]; cbn.
  - exists []. split; [by rewrite app_nil_r | constructor].
  - by intros [].
  - intros k Hk. destruct (decide (key = k)) as [<- | Hne]; [by right |].
    left. by rewrite lookup_insert_ne in Hk.
  - done.
Qed.

Lemma static_fill_get self attr st :
  GetAttr attr ∈ static_reads →
  ∃ v st', _get_cam_attr self attr st = (Normal v, st') ∧ static_fill st st'.
Proof.
  intros Hattr.
  destruct (_get_cam_attr_spec self attr st) as (v & lg & Heq & _).
  eexists v, _. split; [exact Heq |].
  split; [| by repeat split; auto].
  exists [GetAttr attr]. split; [done | by constructor].
Qed.

(** Membership in an explicit list. *)
Ltac in_list :=
  unfold static_reads, static_names;
  repeat first [apply list_elem_of_here | apply list_elem_of_further].

Lemma _update_cam_attr_fill self attr st r st' :
  GetAttr attr ∈ static_reads →
  attr ∈ static_names →
  _update_cam_attr self attr st = (r, st') →
  static_fill st st' ∧ parse_outcome r.
Proof.
  intros Hread Hname. unfold _update_cam_attr, mbind, Py_bind.
  destruct (static_fill_get self attr st Hread) as (v & st1 & -> & Hfill).
  destruct (is_None v).
  - intros [= <- <-]. split; [done | by left].
  - unfold lift_result.
    destruct (_extract_attr v "=") as [x | e] eqn:Hx; cbn.
    + intros [= <- <-]. split; [| by left].
      eapply static_fill_trans; [exact Hfill |].
      by apply static_fill_item.
    + intros [= <- <-]. split; [done |].
      apply _extract_attr_raises in Hx as ->; [by right | done].
Qed.

Lemma for_each_fill (self : Adapter) attrs st r st' :
  Forall (λ attr, GetAttr attr ∈ static_reads ∧ attr ∈ static_names) attrs →
  for_each attrs (_update_cam_attr self) st = (r, st') →
  static_fill st st' ∧ parse_outcome r.
Proof.
  intros Hattrs. revert st.
  induction Hattrs as [| attr attrs [Hread Hname] _ IH]; intros st; cbn.
  - intros [= <- <-]. split; [apply static_fill_refl | by left].
  - unfold mbind, Py_bind.
    destruct (_update_cam_attr self attr st) as [r1 st1] eqn:Hone.
    apply _update_cam_attr_fill in Hone as [Hfill [-> | ->]]; [| | done..].
    + intros Hrest. apply IH in Hrest as [Hfill' Hout].
      split; [by eapply static_fill_trans | done].
    + intros [= <- <-]. split; [done | by right].
Qed.

Lemma _update_static_attrs_fill self st r st' :
  _update_static_attrs self st = (r, st') →
  static_fill st st' ∧ parse_outcome r.
Proof.
  unfold _update_static_attrs, mbind at 1, Py_bind at 1.
  destruct (for_each _ _ st) as [r1 st1] eqn:Hloop.
  apply for_each_fill in Hloop as [Hfill [-> | ->]];
    [| | repeat constructor; in_list].
  2: { intros [= <- <-]. split; [done | by right]. }
  unfold try_except_else, mbind, Py_bind, lift_result.
  destruct (static_fill_get self "software_information" st1)
    as (v & st2 & -> & Hfill2); [in_list |].
  pose proof (static_fill_trans _ _ _ Hfill Hfill2) as Hfill12.
  destruct (unpack2_cases v) as [(a & b & ->) | [-> | ->]].
  - destruct (_extract_attr a "=") as [x | e] eqn:Hx; cbn.
    2: { intros [= <- <-]. split; [done |].
         apply _extract_attr_raises in Hx as ->; [by right | done]. }
    destruct (_extract_attr b ":") as [y | e] eqn:Hy; cbn.
    + intros [= <- <-]. split; [| by left].
      eapply static_fill_trans; [exact Hfill12 |].
      apply (static_fill_trans _
               (mkState (set__static_attrs_item "software_version" x
                           (cache st2))
                  (calls st2) (log st2) (scheduled st2)));
        [apply (static_fill_item st2 "software_version"); in_list |].
      apply (static_fill_item (mkState _ _ _ _) "software_build"). in_list.
    + intros [= <- <-]. split.
      * eapply static_fill_trans; [exact Hfill12 |].
        apply (static_fill_item _ "software_version"). in_list.
      * apply _extract_attr_raises in Hy as ->; [by right | done].
  - cbn. intros [= <- <-]. split; [| by left].
    eapply static_fill_trans; [exact Hfill12 |].
    split; [| by repeat split; auto].
    exists []. split; [by rewrite app_nil_r | constructor].
  - cbn. intros [= <- <-]. split; [done | by left].
Qed.

(** ** Indexing the color tokens *)

Lemma py_eq_str_true v s : py_eq_str v s = true → v = PyStr s.
Proof.
  destruct v; try done. cbn. by intros ->%String.eqb_eq.
Qed.

Lemma list_index_CBW cbw i :
  list_index cbw CBW = Normal i → ∃ t, t ∈ CBW ∧ cbw = PyStr t.
Proof.
  unfold CBW. cbn.
  destruct (py_eq_str cbw CBW_COLOR) eqn:H0;
    [apply py_eq_str_true in H0; intros _; eexists; split; [| done]; in_list |].
  destruct (py_eq_str cbw CBW_AUTO) eqn:H1;
    [apply py_eq_str_true in H1; intros _; eexists; split; [| done]; in_list |].
  destruct (py_eq_str cbw CBW_BW) eqn:H2;
    [apply py_eq_str_true in H2; intros _; eexists; split; [| done]; in_list |].
  done.
Qed.

Lemma list_getitem_int_CBW i :
  (-3 ≤ i < 3 ∧ ∃ t, t ∈ CBW ∧ list_getitem_int CBW i = Normal (PyStr t))
  ∨ ((i < -3 ∨ 3 ≤ i) ∧ list_getitem_int CBW i = Raised IndexError).
Proof.
  unfold list_getitem_int, CBW. cbn [length].
  destruct (decide (-3 ≤ i < 3)) as [Hin | Hout].
  - left. split; [done |].
    assert (i = -3 ∨ i = -2 ∨ i = -1 ∨ i = 0 ∨ i = 1 ∨ i = 2)
      as [-> | [-> | [-> | [-> | [-> | ->]]]]] by lia;
      cbn; eexists; (split; [| done]); in_list.
  - right. split; [lia |].
    destruct (i <? 0) eqn:Hneg.
    + apply Z.ltb_lt in Hneg.
      replace (0 <=? i + Z.of_nat 3) with false by (symmetry; apply Z.leb_gt; lia).
      done.
    + apply Z.ltb_ge in Hneg.
      replace (i <? Z.of_nat 3) with false by (symmetry; apply Z.ltb_ge; lia).
      by rewrite andb_false_r.
Qed.

Lemma list_getitem_CBW v c :
  list_getitem CBW v = Normal c → ∃ t, t ∈ CBW ∧ c = PyStr t.
Proof.
  destruct v as [| b | i | | |]; try done; cbn.
  - destruct (list_getitem_int_CBW (if b then 1 else 0))
      as [(_ & t & Ht & ->) | (_ & ->)]; [| done].
    intros [= <-]. by exists t.
  - destruct (list_getitem_int_CBW i) as [(_ & t & Ht & ->) | (_ & ->)];
      [| done].
    intros [= <-]. by exists t.
Qed.

Lemma list_getitem_raises v e :
  list_getitem CBW v = Raised e → e = IndexError ∨ e = TypeError.
Proof.
  destruct v as [| b | i | | |]; cbn; try (intros [= <-]; by right).
  - destruct (list_getitem_int_CBW (if b then 1 else 0))
      as [(_ & t & Ht & ->) | (_ & ->)]; [done |].
    intros [= <-]. by left.
  - destruct (list_getitem_int_CBW i) as [(_ & t & Ht & ->) | (_ & ->)];
      [done |].
    intros [= <-]. by left.
Qed.

(** ** The refresh as a whole *)

(** The static half of a refresh: it reads the model, when that is
    unknown, and the static attributes; it raises nothing but a
    [TypeError]; it leaves the five refreshed fields alone, and the model
    too once it is known. *)
Lemma refresh_static_fill self st r st' :
  refresh_static self st = (r, st') →
  parse_outcome r
  ∧ (∃ pre, calls st' = calls st ++ pre
       ∧ Forall (λ c, c ∈ GetAttr "device_type" :: static_reads) pre
       ∧ (is_None (_model (cache st)) = false →
            Forall (λ c, c ∈ static_reads) pre))
  ∧ (∀ f, f ≠ F_model →
       field_value f (cache st') = field_value f (cache st))
  ∧ (is_None (_model (cache st)) = false →
       _model (cache st') = _model (cache st))
  ∧ (∀ k, is_Some (_static_attrs (cache st') !! k) →
       is_Some (_static_attrs (cache st) !! k) ∨ k ∈ static_names)
  ∧ scheduled st' = scheduled st.
Proof.
  assert (∀ s s' : State, static_fill s s' →
    (∃ pre, calls s' = calls s ++ pre
       ∧ Forall (λ c, c ∈ GetAttr "device_type" :: static_reads) pre
       ∧ Forall (λ c, c ∈ static_reads) pre)) as Hcalls.
  { intros s s' [(pre & Hc & Hpre) _]. exists pre. repeat split; try done.
    eapply Forall_impl; [exact Hpre |]. intros c Hc'. by right. }
  unfold refresh_static, mbind, Py_bind, get_state.
  destruct (is_None (_model (cache st))) eqn:Hmodel.
  - destruct (_get_cam_attr_spec self "device_type" st)
      as (v & lg & -> & _).
    unfold lift_result. destruct (_extract_attr v "=") as [m | e] eqn:Hm; cbn.
    2: { intros [= <- <-]. apply _extract_attr_raises in Hm as ->; [| done].
         split; [by right |]. split; [| by repeat split; auto].
         exists [GetAttr "device_type"].
         split; [done |]. split; [| done]. repeat constructor. }
    case_bool_decide as Hempty.
    + intros Hrun.
      apply _update_static_attrs_fill in Hrun
        as [[(pre & Hc & Hpre) (Hf & Hk & Hs)] Hout].
      cbn in Hc, Hf, Hk, Hs. split; [done |].
      split; [| split; [| split; [done | by split]]].
      * exists (GetAttr "device_type" :: pre). rewrite Hc, <- app_assoc.
        split; [done |]. split; [| done].
        constructor; [left |].
        eapply Forall_impl; [exact Hpre |]. intros c Hc'. by right.
      * intros f Hne. rewrite Hf. by destruct f.
    + intros [= <- <-]. split; [by left |].
      split; [| split; [| split; [done | split; [cbn; auto | done]]]].
      * exists [GetAttr "device_type"]. split; [done |]. split; [| done].
        repeat constructor.
      * intros f Hne. by destruct f.
  - cbn. case_bool_decide as Hempty.
    + intros Hrun.
      pose proof (_update_static_attrs_fill _ _ _ _ Hrun)
        as [Hfill Hout].
      destruct (Hcalls _ _ Hfill) as (pre & Hc & Hpre1 & Hpre2).
      destruct Hfill as [_ (Hf & Hk & Hs)].
      split; [done |]. split; [by exists pre |].
      split; [by intros f _ |]. split; [intros _; apply (Hf F_model) |].
      by split.
    + intros [= <- <-]. split; [by left |]. split; [| by repeat split; auto].
      exists []. rewrite app_nil_r. by repeat split.
Qed.

(** The five reads keep the typed fields typed and raise nothing but
    what indexing the color tokens raises. *)
Lemma refresh_dynamic_typed self st r st' :
  refresh_dynamic self st = (r, st') →
  (typed_fields (cache st) → typed_fields (cache st'))
  ∧ (r = Normal tt ∨ (∃ detail, r = Raised (AmcrestError detail))
     ∨ r = Raised IndexError ∨ r = Raised TypeError).
Proof.
  unfold refresh_dynamic, mbind, Py_bind, device_call, lift_result,
    typed_fields.
  destruct (_camera self (calls st) _) as [v0 | d0]; cbn.
  2: { intros [= <- <-]. split; [done | right; left; by eexists]. }
  destruct (_camera self _ _) as [v1 | d1]; cbn.
  2: { intros [= <- <-]. split; [done | right; left; by eexists]. }
  destruct (_camera self _ _) as [v2 | d2]; cbn.
  2: { intros [= <- <-]. split; [| right; left; by eexists].
       intros [_ Hcolor]. split; [by eexists | done]. }
  destruct (_camera self _ _) as [v3 | d3]; cbn.
  2: { intros [= <- <-]. split; [| right; left; by eexists].
       intros [_ Hcolor]. split; [by eexists | done]. }
  destruct (_camera self _ _) as [v4 | d4]; cbn.
  2: { intros [= <- <-]. split; [| right; left; by eexists].
       intros [_ Hcolor]. split; [by eexists | done]. }
  destruct (list_getitem CBW v4) as [c | e] eqn:Hc; cbn.
  - intros [= <- <-]. split; [| by left].
    intros _. cbn. split; [by eexists |]. right.
    by apply list_getitem_CBW in Hc.
  - intros [= <- <-]. split.
    + intros [_ Hcolor]. split; [by eexists | done].
    + right. right. apply list_getitem_raises in Hc as [-> | ->]; auto.
Qed.

(** X4.  A refresh only reads.  Every call it makes is one of the ten
    reads of the module, so it never assigns to the device; it schedules
    nothing; and the only exceptions that can leave it are the
    [TypeError] of a value of the wrong kind and the [IndexError] of a
    color number out of range, never the client's own error. *)
Theorem update_only_reads self st :
  ((update self st).1 = Normal tt
   ∨ (update self st).1 = Raised TypeError
   ∨ (update self st).1 = Raised IndexError)
  ∧ (∃ new, calls (update self st).2 = calls st ++ new
       ∧ Forall (λ c, c ∈ all_reads ∧ ∀ attr v, c ≠ SetAttr attr v) new)
  ∧ scheduled (update self st).2 = scheduled st.
Proof.
  destruct (update_cases self st) as (r1 & st1 & Hs & _ & Hrun).
  apply refresh_static_fill in Hs
    as (Hout & (pre & Hpre & Hreads & _) & _ & _ & _ & Hsched).
  cbn in Hpre, Hsched.
  assert (∀ c, c ∈ all_reads → ∀ attr v, c ≠ SetAttr attr v) as Hread.
  { intros c Hc attr v ->. unfold all_reads, static_reads, refresh_reads in Hc.
    cbn in Hc. revert Hc. not_in_list. }
  assert (Forall (λ c, c ∈ all_reads ∧ ∀ attr v, c ≠ SetAttr attr v) pre)
    as Hpre_ok.
  { eapply Forall_impl; [exact Hreads |]. intros c Hc.
    assert (c ∈ all_reads) as Hall; [| by split; [| apply Hread]].
    unfold all_reads. apply elem_of_cons in Hc as [-> | Hc]; [left |].
    right. apply elem_of_app. by left. }
  destruct r1 as [[] | e].
  - destruct Hrun as (r & st2 & Hdyn & ->).
    pose proof (refresh_dynamic_typed _ _ _ _ Hdyn) as [_ Hr].
    apply refresh_dynamic_spec in Hdyn as (_ & _ & _ & Hsched2 & Hcalls).
    assert (∃ j, calls st2 = calls st1 ++ take j refresh_reads) as [j Hj].
    { destruct Hcalls as [(k & d & _ & _ & Hc & _) | (Hc & _)].
      - by exists (S k).
      - exists 5%nat. by rewrite Hc. }
    split; [| split].
    + destruct Hr as [-> | [[d ->] | [-> | ->]]]; auto.
    + exists (pre ++ take j refresh_reads). split.
      * destruct r as [[] | []]; cbn; by rewrite Hj, Hpre, app_assoc.
      * apply Forall_app. split; [done |].
        apply Forall_forall. intros c Hc%subseteq_take.
        assert (c ∈ all_reads) as Hall; [| by split; [| apply Hread]].
        unfold all_reads. right. apply elem_of_app. by right.
    + destruct r as [[] | []]; cbn; congruence.
  - rewrite Hrun. cbn. split; [| split; [by exists pre | done]].
    destruct Hout as [[=] | [= ->]]. auto.
Qed.

(** ** Invariants of the cache *)

(** What an operation other than a refresh does: it only writes to the
    device, leaves the model and the static map alone, and keeps the
    typed fields typed. *)
Lemma command_effects self op st :
  op ≠ Refresh →
  let st' := (run_operation self op st).2 in
  (∃ new, calls st' = calls st ++ new ∧ Forall (λ c, is_write c = true) new)
  ∧ _model (cache st') = _model (cache st)
  ∧ _static_attrs (cache st') = _static_attrs (cache st)
  ∧ (typed_fields (cache st) → typed_fields (cache st')).
Proof.
  intros Hop. unfold typed_fields.
  destruct op as [| [e | e | e | e | cbw] | | | preset | |]; [done | ..].
  5: { cbn. unfold color_bw_setter, try_except_else, mbind, Py_bind,
         lift_result, device_call.
       destruct (list_index cbw CBW) as [i | []] eqn:Hi; cbn;
         try (split; [exists []; by rewrite app_nil_r | done]).
       apply list_index_CBW in Hi as (t & Ht & ->).
       destruct (_camera self (calls st) _); cbn;
         (split; [eexists; split; [done | by repeat constructor] |]);
         (split; [done |]); (split; [done |]); [| done].
       intros [Hrec _]. split; [done |]. right. by exists t. }
  all: unfold run_operation, run_command, turn_off, turn_on, goto_preset,
      tour_on, tour_off, is_recording_setter,
      motion_detection_enabled_setter, video_enabled_setter,
      audio_enabled_setter, try_except, try_except_else,
      mbind, Py_bind, device_call;
    repeat (destruct (_camera self _ _); cbn);
    rewrite <- ?app_assoc;
    (split; [eexists; split; [done | by repeat constructor] |]);
    (split; [done |]); (split; [done |]);
    try done; intros [Hrec Hcolor]; (split; [by eexists | done]).
Qed.

Lemma refresh_or_not op : op = Refresh ∨ op ≠ Refresh.
Proof. destruct op; auto. Qed.

(** One refresh keeps the cache as the adapter keeps it. *)
Lemma update_cache_ok self st :
  cache_ok (cache st) → cache_ok (cache (update self st).2).
Proof.
  intros (Hrec & Hcolor & Hkeys).
  destruct (update_cases self st) as (r1 & st1 & Hs & _ & Hrun).
  apply refresh_static_fill in Hs as (_ & _ & Hf & _ & Hk & _).
  cbn in Hf, Hk.
  assert (cache_ok (cache st1)) as (Hrec1 & Hcolor1 & Hkeys1).
  { pose proof (Hf F_is_recording ltac:(done)) as Hr.
    pose proof (Hf F_color_bw ltac:(done)) as Hc. cbn in Hr, Hc.
    split; [by rewrite Hr |]. split; [by rewrite Hc |].
    intros k [Hin | Hin]%Hk; [by apply Hkeys | done]. }
  destruct r1 as [[] | e]; [| by rewrite Hrun].
  destruct Hrun as (r & st2 & Hdyn & ->).
  pose proof (refresh_dynamic_typed _ _ _ _ Hdyn) as [Htyped _].
  apply refresh_dynamic_spec in Hdyn as (Hmap & _).
  destruct (Htyped (conj Hrec1 Hcolor1)) as [Hrec2 Hcolor2].
  assert (cache_ok (cache st2)) as Hok2.
  { split; [done |]. split; [done |]. by rewrite Hmap. }
  by destruct r as [[] | []].
Qed.

Lemma operation_cache_ok self op st :
  cache_ok (cache st) → cache_ok (cache (run_operation self op st).2).
Proof.
  intros Hok. destruct (refresh_or_not op) as [-> | Hop].
  - by apply update_cache_ok.
  - destruct (command_effects self op st Hop) as (_ & _ & Hmap & Htyped).
    destruct Hok as (Hrec & Hcolor & Hkeys).
    destruct (Htyped (conj Hrec Hcolor)) as [Hrec' Hcolor'].
    split; [done |]. split; [done |]. by rewrite Hmap.
Qed.

Lemma init_cache_ok : cache_ok init_cache.
Proof.
  split; [by exists false |]. split; [by left |].
  intros k [v Hv]. cbn in Hv. by rewrite lookup_empty in Hv.
Qed.

(** X5.  The cache keeps its shape through everything that is asked of
    a camera: the recording flag is always a boolean, the color mode is
    unknown or one of the three tokens, and the static map never holds a
    key besides the five static names. *)
Theorem cache_ok_invariant self ops st :
  cache_ok (cache st) → cache_ok (cache (run_operations self ops st)).
Proof.
  revert st. induction ops as [| op ops IH]; intros st Hok; cbn; [done |].
  by apply IH, operation_cache_ok.
Qed.

Lemma cache_ok_invariant_witness :
  cache_ok (cache (run_operations garage
                     [Refresh; Mutate (ColorMode (PyStr "bw")); TurnOff;
                      Refresh]
                     init_state)).
Proof.
  apply cache_ok_invariant. exact init_cache_ok.
Defined.

(** X6.  Once the model is known no operation reads it from the device
    again, and none changes it. *)
Theorem model_read_only_while_unknown self ops st :
  is_None (_model (cache st)) = false →
  _model (cache (run_operations self ops st)) = _model (cache st)
  ∧ ∃ new, calls (run_operations self ops st) = calls st ++ new
      ∧ GetAttr "device_type" ∉ new.
Proof.
  revert st. induction ops as [| op ops IH]; intros st Hknown; cbn.
  - split; [done |]. exists []. split; [by rewrite app_nil_r |].
    apply not_elem_of_nil.
  - assert (_model (cache (run_operation self op st).2) = _model (cache st)
            ∧ ∃ new, calls (run_operation self op st).2 = calls st ++ new
                ∧ GetAttr "device_type" ∉ new)
      as (Hmodel & new1 & Hcalls1 & Hnone1).
    { destruct (refresh_or_not op) as [-> | Hop].
      - cbn. destruct (update_cases self st) as (r1 & st1 & Hs & _ & Hrun).
        apply refresh_static_fill in Hs
          as (_ & (pre & Hpre & _ & Hreads) & _ & Hm & _).
        cbn in Hpre, Hm. specialize (Hreads Hknown). specialize (Hm Hknown).
        assert (GetAttr "device_type" ∉ pre) as Hpre_ok.
        { intros Hin. eapply Forall_forall in Hreads; [| exact Hin].
          revert Hreads. unfold static_reads. not_in_list. }
        destruct r1 as [[] | e]; [| rewrite Hrun; by eauto].
        destruct Hrun as (r & st2 & Hdyn & ->).
        apply refresh_dynamic_spec in Hdyn as (_ & Hm2 & _ & _ & Hcalls).
        assert (∃ j, calls st2 = calls st1 ++ take j refresh_reads)
          as [j Hj].
        { destruct Hcalls as [(k & d & _ & _ & Hc & _) | (Hc & _)].
          - by exists (S k).
          - exists 5%nat. by rewrite Hc. }
        split; [destruct r as [[] | []]; cbn; congruence |].
        exists (pre ++ take j refresh_reads). split.
        + destruct r as [[] | []]; cbn; by rewrite Hj, Hpre, app_assoc.
        + intros [Hin | Hin%subseteq_take]%elem_of_app; [done |].
          revert Hin. unfold refresh_reads. not_in_list.
      - destruct (command_effects self op st Hop)
          as ((new & Hcalls & Hwrites) & Hm & _).
        split; [done |]. exists new. split; [done |].
        intros Hin. eapply Forall_forall in Hwrites; [| exact Hin]. done. }
    destruct (IH (run_operation self op st).2)
      as (Hmodel' & new2 & Hcalls2 & Hnone2).
    { by rewrite Hmodel. }
    split; [by rewrite Hmodel', Hmodel |].
    exists (new1 ++ new2). split; [by rewrite Hcalls2, Hcalls1, app_assoc |].
    by intros [Hin | Hin]%elem_of_app.
Qed.

Lemma model_read_only_while_unknown_witness :
  let st1 := (update garage init_state).2 in
  _model (cache (run_operations garage [Refresh; TurnOn; Refresh] st1))
  = PyStr "IP2M-841B".
Proof.
  intros st1.
  by destruct (model_read_only_while_unknown garage [Refresh; TurnOn; Refresh]
                 st1 eq_refl) as [-> _].
Defined.

(** ** Exposed attributes *)




(** ** A refresh in the steady state *)

(** X8.  Once the model and some static attribute are known, a refresh
    that the device answers makes exactly the five reads and stores what
    it was told: the stream flag and the motion and audio flags as they
    come, the recording flag as whether the mode reads [Manual], and the
    color mode as the token at the reported position.  When that position
    is no position of the three tokens the exception of the indexing
    leaves [update], with the other four fields already stored and the
    color mode as it was. *)
Theorem update_steady_state self st v0 v1 v2 v3 v4 :
  is_None (_model (cache st)) = false →
  _static_attrs (cache st) ≠ ∅ →
  _camera self (calls st) (GetAttr "video_enabled") = Ok v0 →
  _camera self (calls st ++ take 1 refresh_reads) (GetAttr "record_mode")
  = Ok v1 →
  _camera self (calls st ++ take 2 refresh_reads)
    (CallMethod "is_motion_detector_on" []) = Ok v2 →
  _camera self (calls st ++ take 3 refresh_reads) (GetAttr "audio_enabled")
  = Ok v3 →
  _camera self (calls st ++ take 4 refresh_reads) (GetAttr "day_night_color")
  = Ok v4 →
  let stored (color : PyVal) :=
    mkState
      (mkCache v0 (PyBool (py_eq_str v1 "Manual")) v2 v3 color
         (_model (cache st)) (_static_attrs (cache st)))
      (calls st ++ refresh_reads)
      (log st ++ [mkLog DEBUG "Pulling data from %s camera"
                    [PyStr (_name self)]])
      (scheduled st) in
  update self st
  = match list_getitem CBW v4 with
    | Normal color => (Normal tt, stored color)
    | Raised e => (Raised e, stored (_color_bw (cache st)))
    end.
Proof.
  intros Hmodel Hstatic H0 H1 H2 H3 H4 stored. subst stored.
  cbn in H1, H2, H3, H4.
  unfold update, try_except, try_except_else, mbind, Py_bind, get_state,
    _LOGGER_debug, emit, modify, device_call, lift_result, modify_cache.
  cbn. rewrite Hmodel. cbn. rewrite bool_decide_eq_false_2 by done. cbn.
  rewrite H0. cbn. rewrite H1. cbn. rewrite <- ?app_assoc. cbn.
  rewrite H2. cbn. rewrite <- ?app_assoc. cbn.
  rewrite H3. cbn. rewrite <- ?app_assoc. cbn.
  rewrite H4. cbn. rewrite <- ?app_assoc. cbn.
  destruct (list_getitem CBW v4) as [color | e] eqn:Hc; [done |].
  by apply list_getitem_raises in Hc as [-> | ->].
Qed.

Lemma update_steady_state_witness :
  let st1 := (update porch init_state).2 in
  let self := mkAdapter "porch"
                (λ _ c, if String.eqb (call_name c) "day_night_color"
                        then Ok (PyInt 3)
                        else table_reply healthy_table (call_name c))
                "camera.porch" rtsp in
  (update self st1).1 = Raised IndexError
  ∧ _color_bw (cache (update self st1).2) = PyStr "auto".
Proof.
  intros st1 self.
  rewrite (update_steady_state self st1 (PyBool true) (PyStr "Manual")
             (PyBool true) (PyBool true) (PyInt 3));
    [by split | done | | done ..].
  intros Hempty.
  apply (f_equal (λ m : gmap string PyVal, m !! "machine_name")) in Hempty.
  vm_compute in Hempty. discriminate.
Defined.

(** ** The other stream modes *)

(** X9.  In snapshot and mjpeg mode the hand-off never starts, relays
    or closes a transcoding process: snapshot mode is the generic loop of
    the base class and nothing else; mjpeg mode asks the device for its
    MJPEG address and proxies that address, once, and only when the
    address was obtained. *)
Theorem direct_modes_never_transcode self env tr :
  _stream_source self ≠ rtsp →
  let out := handle_async_mjpeg_stream self env tr in
  (∃ new, out.2 = tr ++ new
     ∧ Forall (λ ev, ev ≠ EvRtspUrl ∧ ev ≠ EvProxyStream
                     ∧ is_open ev = false ∧ is_close ev = false) new)
  ∧ (_stream_source self = snapshot →
       out = (super_handle_async_mjpeg_stream env, tr ++ [EvSuperStream]))
  ∧ (_stream_source self = mjpeg →
       out = match mjpeg_url env with
             | Normal url =>
                 (async_aiohttp_proxy_web env,
                  tr ++ [EvMjpegUrl; EvProxyWeb url])
             | Raised e => (Raised e, tr ++ [EvMjpegUrl])
             end).
Proof.
  intros Hmode out. subst out.
  unfold handle_async_mjpeg_stream, perform, mbind, Py_bind.
  destruct (_stream_source self); [| | done].
  - split; [| split; [done | done]].
    eexists. split; [done |]. by repeat constructor.
  - destruct (mjpeg_url env) as [url | e]; cbn;
      (split; [| split; [done |]]).
    + eexists. rewrite <- app_assoc. split; [done |]. by repeat constructor.
    + intros _. by rewrite <- app_assoc.
    + eexists. split; [done |]. by repeat constructor.
    + done.
Qed.

Lemma direct_modes_never_transcode_witness :
  handle_async_mjpeg_stream garage cancelled_relay []
  = (Normal PyNone, [EvMjpegUrl; EvProxyWeb (PyStr "http://porch/mjpg")]).
Proof.
  destruct (direct_modes_never_transcode garage cancelled_relay [])
    as (_ & _ & Hmjpeg); [done |].
  exact (Hmjpeg eq_refl).
Defined.

(** X10.  In rtsp mode a transcoding process that could not be started
    is never closed and nothing is relayed: when the stream address
    cannot be obtained, or when opening the camera raises, that exception
    is the outcome and the hand-off has done nothing after the failing
    step. *)
Theorem rtsp_start_failure_closes_nothing self env tr :
  _stream_source self = rtsp →
  (∀ e, rtsp_url env = Raised e →
        handle_async_mjpeg_stream self env tr = (Raised e, tr ++ [EvRtspUrl]))
  ∧ (∀ url e, rtsp_url env = Normal url → open_camera env = Raised e →
        handle_async_mjpeg_stream self env tr
        = (Raised e, tr ++ [EvRtspUrl; EvOpenCamera url])).
Proof.
  intros Hmode.
  unfold handle_async_mjpeg_stream, try_finally, perform, mbind, Py_bind.
  rewrite Hmode. split.
  - by intros e ->.
  - intros url e -> ->. by rewrite <- app_assoc.
Qed.

Lemma rtsp_start_failure_closes_nothing_witness :
  let env := mkStreamEnv (Normal PyNone) (Normal PyNone) (Normal PyNone)
               (Normal (PyStr "rtsp://porch/live"))
               (Raised (OtherError "ffmpeg missing"))
               (Normal PyNone) (Normal tt) in
  handle_async_mjpeg_stream porch env []
  = (Raised (OtherError "ffmpeg missing"),
     [EvRtspUrl; EvOpenCamera (PyStr "rtsp://porch/live")]).
Proof.
  intros env.
  destruct (rtsp_start_failure_closes_nothing porch env [] eq_refl)
    as [_ Hopen].
  exact (Hopen _ _ eq_refl eq_refl).
Defined.

(** ** The router's loop *)

Lemma camera_eta cam : mkCamera (adapter cam) (state cam) = cam.
Proof. by destruct cam. Qed.

(** A command that never raises reaches every target once: the store
    after the loop is the store before it with the command run on the
    targeted cameras, and no refresh is collected. *)
Lemma for_targets_commanded command targets cams tasks :
  (∀ self st, (command self st).1 = Normal tt) →
  NoDup targets →
  (∀ i, i ∈ targets → (i < length cams)%nat) →
  for_targets targets command tasks (mkHass (Some cams))
  = (Normal tasks,
     mkHass (Some (imap (λ i cam,
                      if bool_decide (i ∈ targets)
                      then commanded command cam else cam) cams))).
Proof.
  intros Hnormal. revert cams.
  induction targets as [| i targets IH]; intros cams Hnodup Hrange; cbn.
  - do 3 f_equal. apply list_eq. intros j.
    rewrite list_lookup_imap. destruct (cams !! j); [| done]. cbn.
    by rewrite bool_decide_eq_false_2 by apply not_elem_of_nil.
  - apply NoDup_cons in Hnodup as [Hfresh Hnodup].
    destruct (lookup_lt_is_Some_2 cams i) as [cam Hcam];
      [apply Hrange; left |].
    unfold mbind, Py_bind, on_camera. cbn. rewrite Hcam.
    specialize (Hnormal (adapter cam) (state cam)).
    destruct (command (adapter cam) (state cam)) as [r st'] eqn:Hrun.
    cbn in Hnormal. subst r. rewrite IH; [| done |].
    2: { intros j Hj. rewrite length_insert. apply Hrange. by right. }
    do 3 f_equal. apply list_eq. intros j.
    rewrite !list_lookup_imap.
    destruct (decide (i = j)) as [<- | Hne].
    + rewrite list_lookup_insert_eq by (by eapply lookup_lt_Some).
      rewrite Hcam. cbn.
      rewrite bool_decide_eq_false_2, bool_decide_eq_true_2 by (done || left).
      unfold commanded. by rewrite Hrun.
    + rewrite list_lookup_insert_ne by done.
      destruct (cams !! j) as [cam' |]; [| done]. cbn.
      destruct (decide (j ∈ targets)) as [Hin | Hout].
      * by rewrite !bool_decide_eq_true_2 by (done || by right).
      * rewrite !bool_decide_eq_false_2; [done | | done].
        intros [-> | Hin]%elem_of_cons; done.
Qed.

Lemma target_cameras_NoDup extract_entity_ids hass call cams :
  data_amcrest_cams hass = Some cams →
  NoDup (target_cameras extract_entity_ids hass call)
  ∧ ∀ i, i ∈ target_cameras extract_entity_ids hass call →
         (i < length cams)%nat.
Proof.
  intros Hcams. unfold target_cameras. rewrite Hcams. split.
  - eapply sublist_NoDup; [apply NoDup_seq | apply positions_from_sublist].
  - intros i (cam & _ & Hat & _)%elem_of_positions_from.
    rewrite Nat.sub_0_r in Hat. by eapply lookup_lt_Some.
Qed.

Lemma service_command_normal name self st :
  (service_command name self st).1 = Normal tt.
Proof.
  unfold service_command.
  repeat case_match;
    unfold enable_recording, disable_recording, enable_audio, disable_audio,
      tour_on, tour_off, is_recording_setter, audio_enabled_setter,
      try_except, try_except_else, mbind, Py_bind, device_call;
    try done; by destruct (_camera self (calls st) _).
Qed.

Lemma goto_preset_normal preset self st :
  (goto_preset self preset st).1 = Normal tt.
Proof.
  unfold goto_preset, try_except, try_except_else, mbind, Py_bind, device_call.
  by destruct (_camera self (calls st) _).
Qed.

(** X11.  The service handler runs the command of the called service on
    every targeted camera, once and on that camera's own state, leaves
    every other camera of the registry exactly as it was, raises nothing
    and, the module being optimistic, awaits no refresh. *)
Theorem async_service_handler_dispatch extract_entity_ids hass call cams :
  data_amcrest_cams hass = Some cams →
  let targets := target_cameras extract_entity_ids hass call in
  async_service_handler extract_entity_ids call hass
  = (Normal [],
     mkHass (Some (imap (λ i cam,
                      if bool_decide (i ∈ targets)
                      then commanded (service_command (service call)) cam
                      else cam) cams))).
Proof.
  intros Hcams targets. subst targets.
  destruct (target_cameras_NoDup extract_entity_ids hass call cams Hcams)
    as [Hnodup Hrange].
  unfold async_service_handler, mbind, Py_bind, get_state.
  destruct hass as [registry]. cbn in Hcams. subst registry.
  apply for_targets_commanded; [apply service_command_normal | done..].
Qed.

Lemma async_service_handler_dispatch_witness :
  let after := (async_service_handler listed_entity_ids
                  (record_on "camera.garage") two_cameras).2 in
  data_amcrest_cams after
  = Some [mkCamera porch init_state;
          mkCamera garage (enable_recording garage init_state).2].
Proof.
  intros after. subst after.
  by rewrite (async_service_handler_dispatch listed_entity_ids two_cameras
                (record_on "camera.garage") _ eq_refl).
Defined.

(** X12.  Moving to a preset is dispatched in the same way: the preset
    under the [preset] entry of the call is sent to every targeted camera
    and to no other, and nothing is raised. *)
Theorem async_goto_preset_dispatch extract_entity_ids hass call cams :
  data_amcrest_cams hass = Some cams →
  let targets := target_cameras extract_entity_ids hass call in
  let preset := default PyNone (data call !! ATTR_PRESET) in
  async_goto_preset extract_entity_ids call hass
  = (Normal [],
     mkHass (Some (imap (λ i cam,
                      if bool_decide (i ∈ targets)
                      then commanded (λ self, goto_preset self preset) cam
                      else cam) cams))).
Proof.
  intros Hcams targets preset. subst targets preset.
  destruct (target_cameras_NoDup extract_entity_ids hass call cams Hcams)
    as [Hnodup Hrange].
  unfold async_goto_preset, mbind, Py_bind, get_state.
  destruct hass as [registry]. cbn in Hcams. subst registry.
  apply for_targets_commanded; [apply goto_preset_normal | done..].
Qed.

Lemma async_goto_preset_dispatch_witness :
  let call := mkServiceCall SERVICE_GOTO_PRESET {[ ATTR_PRESET := PyInt 2 ]} in
  let after := (async_goto_preset listed_entity_ids call two_cameras).2 in
  (λ cam, calls (state cam)) <$> default [] (data_amcrest_cams after)
  = [[CallMethod "go_to_preset"
        [("action", PyStr "start"); ("preset_point_number", PyInt 2)]];
     [CallMethod "go_to_preset"
        [("action", PyStr "start"); ("preset_point_number", PyInt 2)]]].
Proof.
  intros call after. subst after.
  by rewrite (async_goto_preset_dispatch listed_entity_ids two_cameras
                call _ eq_refl).
Defined.

(** X13.  A service name that the handler's chain does not know changes
    nothing: no camera is asked anything and the registry is as it
    was. *)
Theorem async_service_handler_unknown extract_entity_ids hass call :
  service call ∉ [SERVICE_ENABLE_RECORDING; SERVICE_DISABLE_RECORDING;
                  SERVICE_AUDIO_ON; SERVICE_AUDIO_OFF;
                  SERVICE_TOUR_ON; SERVICE_TOUR_OFF] →
  async_service_handler extract_entity_ids call hass = (Normal [], hass).
Proof.
  intros Hname.
  assert (∀ self, service_command (service call) self = mret tt) as Hnoop.
  { intros self. unfold service_command.
    repeat match goal with
           | |- context [String.eqb ?a ?b] =>
               destruct (String.eqb_spec a b) as [Heq | _];
               [destruct Hname; rewrite Heq; in_list |]
           end.
    done. }
  destruct hass as [[cams |]]; [| done].
  destruct (target_cameras_NoDup extract_entity_ids (mkHass (Some cams)) call
              cams eq_refl) as [Hnodup Hrange].
  unfold async_service_handler, mbind, Py_bind, get_state.
  rewrite for_targets_commanded;
    [| apply service_command_normal | done | done].
  do 3 f_equal. apply list_eq. intros i. rewrite list_lookup_imap.
  destruct (cams !! i) as [cam |]; [| done]. cbn.
  case_bool_decide; [| done].
  unfold commanded. rewrite Hnoop. cbn. by rewrite camera_eta.
Qed.

Lemma async_service_handler_unknown_witness :
  async_service_handler listed_entity_ids
    (mkServiceCall SERVICE_GOTO_PRESET ∅) two_cameras
  = (Normal [], two_cameras).
Proof.
  apply async_service_handler_unknown.
  unfold SERVICE_GOTO_PRESET. not_in_list.
Defined.

(** X14.  A color that is none of the three tokens, or a call without
    a [color_bw] entry, stops the color handler at its first target with
    a [ValueError]: no camera is asked anything and none changes. *)
Theorem async_set_color_bw_rejects extract_entity_ids hass call :
  let cbw := default PyNone (data call !! ATTR_COLOR_BW) in
  (∀ t, t ∈ CBW → cbw ≠ PyStr t) →
  target_cameras extract_entity_ids hass call ≠ [] →
  async_set_color_bw extract_entity_ids call hass = (Raised ValueError, hass).
Proof.
  intros cbw Htoken Htargets.
  assert (list_index cbw CBW = Raised ValueError) as Hindex.
  { destruct (list_index cbw CBW) as [i | e] eqn:Hi.
    - apply list_index_CBW in Hi as (t & Ht & Heq). by destruct (Htoken t).
    - revert Hi. unfold CBW. cbn. repeat case_match; congruence. }
  unfold async_set_color_bw, mbind, Py_bind, get_state. fold cbw.
  destruct (target_cameras_NoDup extract_entity_ids hass call
              (default [] (data_amcrest_cams hass))) as [_ Hrange].
  { unfold target_cameras in Htargets.
    by destruct (data_amcrest_cams hass). }
  destruct (target_cameras extract_entity_ids hass call) as [| i targets];
    [done |].
  destruct hass as [[cams |]]; cbn in Hrange.
  2: { specialize (Hrange i ltac:(left)). lia. }
  destruct (lookup_lt_is_Some_2 cams i) as [cam Hcam]; [apply Hrange; left |].
  cbn. unfold mbind, Py_bind, on_camera. cbn. rewrite Hcam.
  unfold set_color_bw, color_bw_setter, try_except_else, mbind, Py_bind,
    lift_result. rewrite Hindex. cbn.
  by rewrite camera_eta, list_insert_id.
Qed.

Lemma async_set_color_bw_rejects_witness :
  async_set_color_bw listed_entity_ids
    (mkServiceCall SERVICE_SET_COLOR_BW ∅) two_cameras
  = (Raised ValueError, two_cameras).
Proof.
  apply async_set_color_bw_rejects.
  - by intros t _.
  - by vm_compute.
Defined.

(** X19.  A color that is one of the three tokens is dispatched like
    the other commands: it is set on every targeted camera and on no
    other, and nothing is raised. *)
Theorem async_set_color_bw_dispatch extract_entity_ids hass call cams t :
  data_amcrest_cams hass = Some cams →
  t ∈ CBW →
  data call !! ATTR_COLOR_BW = Some (PyStr t) →
  let targets := target_cameras extract_entity_ids hass call in
  async_set_color_bw extract_entity_ids call hass
  = (Normal [],
     mkHass (Some (imap (λ i cam,
                      if bool_decide (i ∈ targets)
                      then commanded (λ self, set_color_bw self (PyStr t)) cam
                      else cam) cams))).
Proof.
  intros Hcams Ht Hdata targets. subst targets.
  destruct (target_cameras_NoDup extract_entity_ids hass call cams Hcams)
    as [Hnodup Hrange].
  unfold async_set_color_bw, mbind, Py_bind, get_state. rewrite Hdata. cbn.
  destruct hass as [registry]. cbn in Hcams. subst registry.
  apply for_targets_commanded; [| done..].
  intros self st.
  destruct (CBW_index_getitem t Ht) as (i & _ & Hindex & _).
  unfold set_color_bw, color_bw_setter, try_except_else, mbind, Py_bind,
    lift_result, device_call.
  rewrite Hindex. by destruct (_camera self (calls st) _).
Qed.

Lemma async_set_color_bw_dispatch_witness :
  let call := mkServiceCall SERVICE_SET_COLOR_BW
                {[ ATTR_COLOR_BW := PyStr "bw";
                   ATTR_ENTITY_ID := PyStr "camera.porch" ]} in
  let after := (async_set_color_bw listed_entity_ids call two_cameras).2 in
  (λ cam, _color_bw (cache (state cam)))
    <$> default [] (data_amcrest_cams after)
  = [PyStr "bw"; PyNone].
Proof.
  intros call after. subst after.
  rewrite (async_set_color_bw_dispatch listed_entity_ids two_cameras
             call _ "bw" eq_refl); [by vm_compute | | by vm_compute].
  unfold CBW, CBW_BW. in_list.
Defined.

(** ** The registry grows at its end *)

Lemma positions_from_app k p l1 l2 :
  positions_from k p (l1 ++ l2)
  = positions_from k p l1 ++ positions_from (k + length l1) p l2.
Proof.
  revert k. induction l1 as [| cam l1 IH]; intros k; cbn.
  - by rewrite Nat.add_0_r.
  - rewrite IH, Nat.add_succ_comm. by destruct (p cam).
Qed.

(** X15.  Attaching a camera to the host appends it to the registry:
    every camera targeted before is targeted still, at the same position,
    and the new camera is targeted, at the end, exactly when the call
    names no entity or names its entity id.  (The host's helper is taken
    to resolve the call as before.) *)
Theorem added_camera_is_targeted extract_entity_ids hass call cam :
  extract_entity_ids (async_added_to_hass cam hass) call
  = extract_entity_ids hass call →
  target_cameras extract_entity_ids (async_added_to_hass cam hass) call
  = target_cameras extract_entity_ids hass call
    ++ (if bool_decide (ATTR_ENTITY_ID ∈ dom (data call))
           && negb (bool_decide (entity_id (adapter cam)
                                 ∈ extract_entity_ids hass call))
        then []
        else [length (default [] (data_amcrest_cams hass))]).
Proof.
  intros Hsame. unfold target_cameras. rewrite Hsame.
  unfold async_added_to_hass. cbn. rewrite positions_from_app. cbn.
  destruct (data_amcrest_cams hass) as [cams |]; cbn;
    destruct (bool_decide (ATTR_ENTITY_ID ∈ dom (data call))); cbn;
    try done;
    by destruct (bool_decide (entity_id (adapter cam) ∈ _)).
Qed.

Lemma added_camera_is_targeted_witness :
  target_cameras listed_entity_ids
    (async_added_to_hass (mkCamera attic init_state) two_cameras)
    (record_on "camera.attic")
  = [2%nat].
Proof.
  by rewrite (added_camera_is_targeted listed_entity_ids two_cameras
                (record_on "camera.attic") (mkCamera attic init_state)
                eq_refl).
Defined.

(** ** Service registration *)

Lemma services_registered (reg : gmap string (Handler * Schema)) name entry :
  (name, entry) ∈ services →
  foldl (λ reg service, <[service.1 := service.2]> reg) reg services !! name
  = Some entry.
Proof.
  unfold services. intros Hin. cbn.
  repeat (apply elem_of_cons in Hin as [[= -> ->] | Hin];
          [by rewrite ?lookup_insert_ne, ?lookup_insert_eq by done |]).
  by apply elem_of_nil in Hin.
Qed.

Lemma services_others_kept (reg : gmap string (Handler * Schema)) name :
  name ∉ services.*1 →
  foldl (λ reg service, <[service.1 := service.2]> reg) reg services !! name
  = reg !! name.
Proof.
  unfold services. cbn. intros Hout.
  rewrite !lookup_insert_ne; [done | ..];
    intros <-; apply Hout; in_list.
Qed.

(** X16.  Registering the services is idempotent and all-or-nothing on
    the first name: when [amcrest_enable_recording] is registered
    nothing is touched, whatever else is missing; otherwise all eight
    services end up registered with their handler and schema and no other
    service of the host is touched; and registering again changes
    nothing. *)
Theorem register_services_idempotent (reg : gmap string (Handler * Schema)) :
  (is_Some (reg !! SERVICE_ENABLE_RECORDING) → register_services reg = reg)
  ∧ (reg !! SERVICE_ENABLE_RECORDING = None →
       (∀ name entry, (name, entry) ∈ services →
          register_services reg !! name = Some entry)
       ∧ (∀ name, name ∉ services.*1 →
            register_services reg !! name = reg !! name))
  ∧ register_services (register_services reg) = register_services reg.
Proof.
  assert (is_Some (reg !! SERVICE_ENABLE_RECORDING) →
          register_services reg = reg) as Hskip.
  { intros Hfirst. unfold register_services, services.
    by rewrite bool_decide_eq_true_2. }
  assert (reg !! SERVICE_ENABLE_RECORDING = None →
          register_services reg
          = foldl (λ reg service, <[service.1 := service.2]> reg) reg services)
    as Hall.
  { intros Hfirst. unfold register_services at 1, services at 1.
    rewrite bool_decide_eq_false_2; [done |].
    rewrite Hfirst. by intros [? ?]. }
  split; [done |]. split.
  - intros Hfirst. rewrite (Hall Hfirst). split.
    + intros name entry. apply services_registered.
    + apply services_others_kept.
  - assert (is_Some (reg !! SERVICE_ENABLE_RECORDING)
            ∨ reg !! SERVICE_ENABLE_RECORDING = None) as [Hfirst | Hfirst]
      by (destruct (reg !! SERVICE_ENABLE_RECORDING); eauto).
    + by rewrite !(Hskip Hfirst).
    + unfold register_services at 1, services at 1.
      rewrite bool_decide_eq_true_2; [done |].
      rewrite (Hall Hfirst).
      rewrite (services_registered reg SERVICE_ENABLE_RECORDING
                 (H_async_service_handler, CAMERA_SERVICE_SCHEMA));
        [by eexists | unfold services; left].
Qed.

Lemma register_services_idempotent_witness :
  let half : gmap string (Handler * Schema) :=
    {[ SERVICE_ENABLE_RECORDING :=
         (H_async_service_handler, CAMERA_SERVICE_SCHEMA) ]} in
  register_services half !! SERVICE_TOUR_ON = None
  ∧ register_services ∅ !! SERVICE_TOUR_ON
    = Some (H_async_service_handler, CAMERA_SERVICE_SCHEMA).
Proof.
  intros half. split.
  - destruct (register_services_idempotent half) as (-> & _); [| done].
    by eexists.
  - destruct (register_services_idempotent ∅) as (_ & Hall & _).
    destruct (Hall eq_refl) as [Hreg _]. apply Hreg.
    unfold services. in_list.
Defined.

(** X17.  No registered service is a silent no-op: every service that
    is registered with the shared handler reaches one of the six commands
    of its chain, and is registered with the plain camera schema. *)
Theorem registered_services_are_handled name schema :
  (name, (H_async_service_handler, schema)) ∈ services →
  schema = CAMERA_SERVICE_SCHEMA
  ∧ ∃ method,
      method ∈ [enable_recording; disable_recording; enable_audio;
                disable_audio; tour_on; tour_off]
      ∧ service_command name = method.
Proof.
  unfold services. intros Hin.
  repeat (apply elem_of_cons in Hin as [Heq | Hin];
          [first [discriminate Heq
                 | injection Heq as -> ->; split; [done |];
                   eexists; split; [| reflexivity]; in_list] |]).
  by apply elem_of_nil in Hin.
Qed.

Lemma registered_services_are_handled_witness :
  ∃ method, method ∈ [enable_recording; disable_recording; enable_audio;
                      disable_audio; tour_on; tour_off]
    ∧ service_command SERVICE_TOUR_OFF = method.
Proof.
  destruct (registered_services_are_handled SERVICE_TOUR_OFF
              CAMERA_SERVICE_SCHEMA) as [_ H]; [| exact H].
  unfold services. in_list.
Defined.

(** ** What the parser returns *)

Lemma prefix_nonempty_empty sep :
  sep ≠ EmptyString → String.prefix sep EmptyString = false.
Proof. by destruct sep. Qed.

Lemma occurs_upto_end sep cur :
  sep ≠ EmptyString →
  occurs_upto sep cur EmptyString = false → occurs sep cur = false.
Proof.
  intros Hsep. induction cur as [| c cur IH]; cbn [occurs occurs_upto].
  - intros _. by apply prefix_nonempty_empty.
  - rewrite append_empty_r. intros [-> Hrest]%orb_false_iff. by apply IH.
Qed.

Lemma occurs_upto_snoc sep cur c s :
  occurs_upto sep cur (String c s) = false →
  String.prefix sep (String c s) = false →
  occurs_upto sep (cur +:+ String c EmptyString) s = false.
Proof.
  intros Hcur Hhere. induction cur as [| a cur IH].
  - change (EmptyString +:+ String c EmptyString) with (String c EmptyString).
    cbn [occurs_upto].
    change (String c EmptyString +:+ s) with (String c s).
    by rewrite Hhere.
  - cbn [occurs_upto] in Hcur. apply orb_false_iff in Hcur as [Hfirst Hrest].
    change (String a cur +:+ String c EmptyString)
      with (String a (cur +:+ String c EmptyString)).
    cbn [occurs_upto]. rewrite (IH Hrest), orb_false_r.
    change (String a (cur +:+ String c EmptyString) +:+ s)
      with (String a ((cur +:+ String c EmptyString) +:+ s)).
    by rewrite append_snoc.
Qed.

(** The last piece of a split holds no separator. *)
Lemma split_from_last_clean sep s skip cur p :
  sep ≠ EmptyString →
  match skip with
  | O => occurs_upto sep cur s = false
  | S _ => cur = EmptyString
  end →
  last (split_from sep s skip cur) = Some p →
  occurs sep p = false.
Proof.
  intros Hsep. revert skip cur.
  induction s as [| c s IH]; intros skip cur Hinv; cbn [split_from].
  - intros [= <-]. destruct skip.
    + by apply occurs_upto_end.
    + subst cur. by apply prefix_nonempty_empty.
  - destruct skip as [| k].
    + destruct (String.prefix sep (String c s)) eqn:Hhere.
      * rewrite last_cons.
        destruct (last (split_from sep s _ EmptyString)) as [q |] eqn:Hlast.
        -- intros [= <-]. eapply IH; [| exact Hlast]. by destruct (_ - 1)%nat.
        -- apply last_None in Hlast. by apply split_from_nonempty in Hlast.
      * apply IH. by apply occurs_upto_snoc.
    + subst cur. apply IH. by destruct k.
Qed.

Lemma occurs_tail sep c s :
  occurs sep (String c s) = false → occurs sep s = false.
Proof. cbn [occurs]. by intros [_ ?]%orb_false_iff. Qed.

Lemma occurs_lstrip sep s :
  occurs sep s = false → occurs sep (lstrip s) = false.
Proof.
  induction s as [| c s IH]; [done |]. cbn [lstrip].
  destruct (is_space c); [| done]. intros H. by apply IH, (occurs_tail _ c).
Qed.

Lemma prefix_append sep x w :
  String.prefix sep x = true → String.prefix sep (x +:+ w) = true.
Proof.
  revert x. induction sep as [| a sep IH]; intros x; [by destruct (x +:+ w) |].
  destruct x as [| b x]; [done |].
  change (String b x +:+ w) with (String b (x +:+ w)). cbn.
  destruct (ascii_dec a b); [apply IH | done].
Qed.

Lemma occurs_append sep x w :
  occurs sep x = true → occurs sep (x +:+ w) = true.
Proof.
  induction x as [| c x IH].
  - cbn [occurs]. intros H. apply (prefix_append _ _ w) in H.
    change (EmptyString +:+ w) with w in *.
    destruct w; cbn [occurs]; [done | by rewrite H].
  - change (String c x +:+ w) with (String c (x +:+ w)). cbn [occurs].
    intros [H | H]%orb_true_iff.
    + apply (prefix_append _ _ w) in H.
      change (String c x +:+ w) with (String c (x +:+ w)) in H.
      by rewrite H.
    + by rewrite (IH H), orb_true_r.
Qed.

Lemma rstrip_prefix s : ∃ w, s = rstrip s +:+ w.
Proof.
  induction s as [| c s [w IH]]; [by exists EmptyString |].
  cbn [rstrip]. destruct (rstrip s) as [| a r] eqn:Hr.
  - destruct (is_space c).
    + by exists (String c s).
    + exists w. change (String c EmptyString +:+ w) with (String c w).
      by rewrite IH at 1.
  - exists w. change (String c (String a r) +:+ w)
      with (String c (String a r +:+ w)). by rewrite <- IH.
Qed.

Lemma occurs_rstrip sep s :
  occurs sep s = false → occurs sep (rstrip s) = false.
Proof.
  intros Hs. destruct (occurs sep (rstrip s)) eqn:Hr; [| done].
  destruct (rstrip_prefix s) as [w Hw].
  apply (occurs_append _ _ w) in Hr. rewrite <- Hw in Hr. congruence.
Qed.

Lemma lstrip_headed s : headed (lstrip s).
Proof.
  induction s as [| c s IH]; [done |]. cbn [lstrip].
  by destruct (is_space c) eqn:Hc.
Qed.

Lemma rstrip_headed s : headed s → headed (rstrip s).
Proof.
  destruct s as [| c s]; [done |]. cbn [headed rstrip]. intros Hc.
  destruct (rstrip s); by rewrite ?Hc.
Qed.

Lemma lstrip_of_headed s : headed s → lstrip s = s.
Proof. destruct s as [| c s]; [done |]. cbn. by intros ->. Qed.

Lemma rstrip_rstrip s : rstrip (rstrip s) = rstrip s.
Proof.
  induction s as [| c s IH]; [done |]. cbn [rstrip].
  destruct (rstrip s) as [| a r] eqn:Hr.
  - destruct (is_space c) eqn:Hc; [done |]. cbn. by rewrite Hc.
  - cbn [rstrip]. cbn [rstrip] in IH. by rewrite IH.
Qed.

Lemma strip_strip s : strip (strip s) = strip s.
Proof.
  unfold strip.
  rewrite (lstrip_of_headed (rstrip (lstrip s)))
    by apply rstrip_headed, lstrip_headed.
  apply rstrip_rstrip.
Qed.

(** X18.  What the parser extracts from a string is clean: it holds no
    separator and no whitespace at either end, so that extracting from it
    again, with the same separator, gives it back unchanged. *)
Theorem extract_attr_idempotent s sep t :
  sep ≠ EmptyString →
  _extract_attr (PyStr s) sep = Normal (PyStr t) →
  occurs sep t = false
  ∧ strip t = t
  ∧ _extract_attr (PyStr t) sep = Normal (PyStr t).
Proof.
  intros Hsep.
  unfold _extract_attr, split_last_strip, str_split, last_item.
  destruct sep as [| a sep]; [done |].
  destruct (last (split_from _ s 0 EmptyString)) as [p |] eqn:Hlast; [| done].
  intros [= <-].
  apply split_from_last_clean in Hlast; [| done | done].
  assert (occurs (String a sep) (strip p) = false) as Hclean.
  { unfold strip. by apply occurs_rstrip, occurs_lstrip. }
  split; [done |]. split; [apply strip_strip |].
  rewrite (split_from_absent _ _ _ Hclean).
  change (EmptyString +:+ strip p) with (strip p). cbn [last].
  by rewrite strip_strip.
Qed.

Lemma extract_attr_idempotent_witness :
  occurs "=" "1.00" = false
  ∧ _extract_attr (PyStr "1.00") "=" = Normal (PyStr "1.00").
Proof.
  destruct (extract_attr_idempotent "hw = 1.00 " "=" "1.00"
              ltac:(discriminate) eq_refl) as (Hclean & _ & Hagain).
  split; [exact Hclean | exact Hagain].
Defined.

(** ** A camera that does not answer *)

Lemma only_errors_refl st : only_errors st st.
Proof.
  split; [done |]. split; [done |]. exists []. by rewrite app_nil_r.
Qed.

Lemma only_errors_trans st1 st2 st3 :
  only_errors st1 st2 → only_errors st2 st3 → only_errors st1 st3.
Proof.
  intros (Hc1 & Hs1 & e1 & Hl1 & He1) (Hc2 & Hs2 & e2 & Hl2 & He2).
  split; [congruence |]. split; [congruence |].
  exists (e1 ++ e2). split; [by rewrite Hl2, Hl1, app_assoc |].
  by apply Forall_app.
Qed.

Section Unreachable.

Context (self : Adapter).
Hypothesis dead : ∀ history c, ∃ detail, _camera self history c = Fail detail.

Lemma dead_get_cam_attr attr st :
  ∃ st', _get_cam_attr self attr st = (Normal PyNone, st')
    ∧ only_errors st st'.
Proof.
  destruct (_get_cam_attr_spec self attr st) as (v & records & Heq & Hreply).
  destruct (dead (calls st) (GetAttr attr)) as [detail Hd].
  rewrite Hd in Hreply. destruct Hreply as [-> ->].
  eexists. split; [exact Heq |].
  split; [done |]. split; [done |]. eexists. split; [done |].
  by repeat constructor.
Qed.

Lemma dead_update_cam_attr attr st :
  ∃ st', _update_cam_attr self attr st = (Normal tt, st')
    ∧ only_errors st st'.
Proof.
  destruct (dead_get_cam_attr attr st) as (st' & Hget & Hquiet).
  exists st'. split; [| done].
  unfold _update_cam_attr, mbind, Py_bind. by rewrite Hget.
Qed.

Lemma dead_for_each attrs st :
  ∃ st', for_each attrs (_update_cam_attr self) st = (Normal tt, st')
    ∧ only_errors st st'.
Proof.
  revert st. induction attrs as [| attr attrs IH]; intros st; cbn.
  - exists st. split; [done | apply only_errors_refl].
  - destruct (dead_update_cam_attr attr st) as (st1 & Hone & Hquiet1).
    destruct (IH st1) as (st2 & Hrest & Hquiet2).
    exists st2. split; [| by eapply only_errors_trans].
    unfold mbind, Py_bind. by rewrite Hone.
Qed.

Lemma dead_update_static_attrs st :
  ∃ st', _update_static_attrs self st = (Normal tt, st')
    ∧ only_errors st st'.
Proof.
  destruct (dead_for_each ["hardware_version"; "machine_name"; "serial_number"]
              st) as (st1 & Hloop & Hquiet1).
  destruct (dead_get_cam_attr "software_information" st1)
    as (st2 & Hget & Hquiet2).
  exists st2. split; [| by eapply only_errors_trans].
  unfold _update_static_attrs, try_except_else, mbind, Py_bind, lift_result.
  by rewrite Hloop, Hget.
Qed.

Lemma dead_refresh_static st :
  ∃ st', refresh_static self st = (Normal tt, st') ∧ only_errors st st'.
Proof.
  assert (∀ c, is_None (_model c) = true → set__model PyNone c = c) as Hmodel.
  { intros [? ? ? ? ? m ?]. cbn. by destruct m. }
  unfold refresh_static, mbind, Py_bind, get_state.
  destruct (is_None (_model (cache st))) eqn:Hnone.
  - destruct (dead_get_cam_attr "device_type" st)
      as (st1 & -> & Hquiet1).
    cbn -[_update_static_attrs]. unfold modify_cache, modify.
    cbn -[_update_static_attrs].
    destruct Hquiet1 as (Hc1 & Hs1 & errs & Hl1 & He1).
    rewrite Hc1, (Hmodel _ Hnone).
    assert (only_errors st
              (mkState (cache st) (calls st1) (log st1) (scheduled st1)))
      as Hquiet by (split; [done |]; split; [done |]; by exists errs).
    case_bool_decide.
    + destruct (dead_update_static_attrs
                  (mkState (cache st) (calls st1) (log st1) (scheduled st1)))
        as (st2 & -> & Hquiet2).
      exists st2. split; [done | by eapply only_errors_trans].
    + eexists. by split.
  - cbn -[_update_static_attrs]. case_bool_decide.
    + apply dead_update_static_attrs.
    + exists st. split; [done | apply only_errors_refl].
Qed.

End Unreachable.

(** X20.  While the device fails every call, a refresh is harmless: it
    ends normally, the whole cache is what it was, nothing is scheduled,
    and every record it logs after its opening line is an error, the last
    one being the failed refresh itself. *)
Theorem update_unreachable_camera self st :
  (∀ history c, ∃ detail, _camera self history c = Fail detail) →
  (update self st).1 = Normal tt
  ∧ cache (update self st).2 = cache st
  ∧ scheduled (update self st).2 = scheduled st
  ∧ ∃ errors detail,
      log (update self st).2
      = log st
        ++ mkLog DEBUG "Pulling data from %s camera" [PyStr (_name self)]
           :: errors
        ++ [mkLog ERROR "Could not get %s camera attributes due to error: %s"
              [PyStr (_name self); PyStr detail]]
      ∧ Forall (λ record, level record = ERROR) errors.
Proof.
  intros Hdead. rewrite update_unfold.
  unfold try_except, try_except_else, mbind, Py_bind.
  destruct (dead_refresh_static self Hdead
              (mkState (cache st) (calls st)
                 (log st ++ [mkLog DEBUG "Pulling data from %s camera"
                               [PyStr (_name self)]])
                 (scheduled st)))
    as (st1 & -> & Hc & Hs & errors & Hl & He).
  cbn in Hc, Hs, Hl.
  unfold refresh_dynamic, mbind, Py_bind, device_call.
  destruct (Hdead (calls st1) (GetAttr "video_enabled")) as [detail ->].
  cbn. split; [done |]. split; [done |]. split; [done |].
  exists errors, detail. split; [| done].
  rewrite Hl, <- !app_assoc. done.
Qed.

Lemma update_unreachable_camera_witness :
  let self := mkAdapter "shed" (λ _ _, Fail "unreachable") "camera.shed"
                snapshot in
  (update self init_state).1 = Normal tt
  ∧ cache (update self init_state).2 = init_cache.
Proof.
  intros self.
  destruct (update_unreachable_camera self init_state) as (Hr & Hc & _).
  - intros history c. by exists "unreachable".
  - split; [exact Hr | exact Hc].
Defined.
